(** * QtMWidgets [AbstractListView]: anchor / offset maintenance

    A shallow embedding of [src/abstractlistview.hpp]: the private data of
    the list view ([firstVisibleRow], [offset], [spacing]), the layout
    probes ([visualRect], [rowAt], [calcScrolledAreaSize]), the offset
    normaliser ([normalizeOffset], [canScrollDown], [maxOffset]), the scroll
    planner ([calculateScroll], [scrollTo]) and the slots driven by the
    model's change signals.

    Conventions.
    - A C++ [int] is a [Z].  Signed overflow is undefined behaviour in C++,
      so executions that overflow are outside the model.
    - [while] loops take fuel and report [OutOfFuel] when it runs out; the
      counted [for] loops recurse on their iteration count.
    - A query of the model outside [0, rowCount) is a fault, [OutOfRange]. *)

From Stdlib Require Import ZArith List Bool Lia.
Import ListNotations.
Local Open Scope Z_scope.

(** ** Faults and the result monad *)

Inductive fault : Type :=
| OutOfRange (row : Z)
| OutOfFuel.

Inductive result (A : Type) : Type :=
| Ok (a : A)
| Fault (f : fault).

Arguments Ok {A} a.
Arguments Fault {A} f.

Definition rbind {A B : Type} (r : result A) (k : A -> result B) : result B :=
  match r with
  | Ok a => k a
  | Fault f => Fault f
  end.

Notation "x <- e ;; k" := (rbind e (fun x => k))
  (at level 61, e at next level, right associativity).

(** ** Qt geometry

    [QPoint], [QSize] and [QRect] as Qt defines them: a rectangle stores its
    two corners, and [QRect(x, y, w, h)] has the corners [(x, y)] and
    [(x + w - 1, y + h - 1)]. *)

Record QPoint : Type := mkPoint { pt_x : Z; pt_y : Z }.

Record QSize : Type := mkSize { sz_width : Z; sz_height : Z }.

Record QRect : Type := mkRect { x1 : Z; y1 : Z; x2 : Z; y2 : Z }.

Definition QRect_xywh (x y w h : Z) : QRect :=
  mkRect x y (x + w - 1) (y + h - 1).

(** [QRect()], the null rectangle. *)
Definition QRect_null : QRect := mkRect 0 0 (-1) (-1).

Definition rect_x (r : QRect) : Z := x1 r.
Definition rect_y (r : QRect) : Z := y1 r.
Definition rect_width (r : QRect) : Z := x2 r - x1 r + 1.
Definition rect_height (r : QRect) : Z := y2 r - y1 r + 1.

Definition rect_isNull (r : QRect) : bool :=
  (x2 r =? x1 r - 1) && (y2 r =? y1 r - 1).

(** [QRect::contains(const QPoint &, bool proper)]. *)
Definition rect_contains (r : QRect) (p : QPoint) (proper : bool) : bool :=
  let '(l, rr) := if x2 r <? x1 r - 1 then (x2 r, x1 r) else (x1 r, x2 r) in
  let '(t, b) := if y2 r <? y1 r - 1 then (y2 r, y1 r) else (y1 r, y2 r) in
  if proper
  then (l <? pt_x p) && (pt_x p <? rr) && (t <? pt_y p) && (pt_y p <? b)
  else (l <=? pt_x p) && (pt_x p <=? rr) && (t <=? pt_y p) && (pt_y p <=? b).

(** [QRect::intersected], that is [QRect::operator&]. *)
Definition rect_intersected (a b : QRect) : QRect :=
  if rect_isNull a || rect_isNull b then QRect_null
  else
    let '(l1, r1) := if x2 a - x1 a + 1 <? 0 then (x2 a, x1 a) else (x1 a, x2 a) in
    let '(l2, r2) := if x2 b - x1 b + 1 <? 0 then (x2 b, x1 b) else (x1 b, x2 b) in
    if (l1 >? r2) || (l2 >? r1) then QRect_null
    else
      let '(t1, b1) := if y2 a - y1 a + 1 <? 0 then (y2 a, y1 a) else (y1 a, y2 a) in
      let '(t2, b2) := if y2 b - y1 b + 1 <? 0 then (y2 b, y1 b) else (y1 b, y2 b) in
      if (t1 >? b2) || (t2 >? b1) then QRect_null
      else mkRect (Z.max l1 l2) (Z.max t1 t2) (Z.min r1 r2) (Z.min b1 b2).

(** ** The row-metrics provider

    Modelled from the spec: [listmodel.hpp] is not part of the sources at
    hand.  The provider supplies [count()] and a height for a given width
    for each row of the collection (spec, section 3 and 6); a row is
    represented by its height function, the collection by the list of its
    rows, and a query outside [0, rowCount) has no answer. *)

Definition Row : Type := Z -> Z.

Definition ListModel : Type := list Row.

Definition rowCount (m : ListModel) : Z := Z.of_nat (length m).

Definition heightForWidth (m : ListModel) (row width : Z) : result Z :=
  if row <? 0 then Fault (OutOfRange row)
  else match nth_error m (Z.to_nat row) with
       | Some r => Ok (r width)
       | None => Fault (OutOfRange row)
       end.

(** Modelled from the spec: the collection after the rows [first..last]
    (inclusive) have been removed; the notification [rowsRemoved] is
    delivered once this has happened. *)
Definition removeRows (m : ListModel) (first last : Z) : ListModel :=
  firstn (Z.to_nat first) m ++ skipn (Z.to_nat (last + 1)) m.

(** ** Private data of the view

    [AbstractListViewPrivate] with the fields of its bases that the
    algorithms read or write: [viewport] is the size of the viewport widget
    (its [rect()] is [QRect(0, 0, width, height)]), [scrolledAreaSize] and
    [topLeftPointShownArea] belong to the scroll area, and [updates] counts
    the calls of [viewport->update()]. *)

Record ListViewPrivate : Type := mkD {
  model : ListModel;
  spacing : Z;
  viewport : QSize;
  firstVisibleRow : Z;
  offset : Z;
  scrolledAreaSize : QSize;
  topLeftPointShownArea : QPoint;
  updates : nat
}.

Definition viewport_rect (d : ListViewPrivate) : QRect :=
  QRect_xywh 0 0 (sz_width (viewport d)) (sz_height (viewport d)).

Definition set_model (d : ListViewPrivate) (m : ListModel) : ListViewPrivate :=
  mkD m (spacing d) (viewport d) (firstVisibleRow d) (offset d)
      (scrolledAreaSize d) (topLeftPointShownArea d) (updates d).

Definition set_firstVisibleRow (d : ListViewPrivate) (row : Z) : ListViewPrivate :=
  mkD (model d) (spacing d) (viewport d) row (offset d)
      (scrolledAreaSize d) (topLeftPointShownArea d) (updates d).

Definition set_offset (d : ListViewPrivate) (o : Z) : ListViewPrivate :=
  mkD (model d) (spacing d) (viewport d) (firstVisibleRow d) o
      (scrolledAreaSize d) (topLeftPointShownArea d) (updates d).

Definition set_scrolledAreaSize (d : ListViewPrivate) (s : QSize) : ListViewPrivate :=
  mkD (model d) (spacing d) (viewport d) (firstVisibleRow d) (offset d)
      s (topLeftPointShownArea d) (updates d).

Definition set_topLeftPointShownArea (d : ListViewPrivate) (p : QPoint) : ListViewPrivate :=
  mkD (model d) (spacing d) (viewport d) (firstVisibleRow d) (offset d)
      (scrolledAreaSize d) p (updates d).

(** [viewport->update()]. *)
Definition viewport_update (d : ListViewPrivate) : ListViewPrivate :=
  mkD (model d) (spacing d) (viewport d) (firstVisibleRow d) (offset d)
      (scrolledAreaSize d) (topLeftPointShownArea d) (S (updates d)).

(** ** The state monad of the slots

    A slot runs on the private data and leaves it changed; a fault of a
    later step does not undo the assignments made before it. *)

Definition View (A : Type) : Type := ListViewPrivate -> ListViewPrivate * result A.

Definition vret {A : Type} (a : A) : View A := fun d => (d, Ok a).

Definition vbind {A B : Type} (c : View A) (k : A -> View B) : View B :=
  fun d =>
    match c d with
    | (d', Ok a) => k a d'
    | (d', Fault f) => (d', Fault f)
    end.

(** A [const] member function read on the current data. *)
Definition vread {A : Type} (f : ListViewPrivate -> result A) : View A :=
  fun d => (d, f d).

Definition vmodify (f : ListViewPrivate -> ListViewPrivate) : View unit :=
  fun d => (f d, Ok tt).

Notation "x <~ c ;; k" := (vbind c (fun x => k))
  (at level 61, c at next level, right associativity).
Notation "c ;;; k" := (vbind c (fun _ => k))
  (at level 61, right associativity).

(** ** Layout probe *)

Section Probe.

Variable d : ListViewPrivate.

(** The body of the [for] loop of [calcScrolledAreaSize]: [n] iterations
    are left, [i] is the loop index. *)
Fixpoint calcScrolledAreaSize_for (rowWidth : Z) (n : nat) (i height : Z)
  : result Z :=
  match n with
  | O => Ok height
  | S n' =>
      h <- heightForWidth (model d) i rowWidth ;;
      calcScrolledAreaSize_for rowWidth n' (i + 1) (height + (h + spacing d))
  end.

Definition calcScrolledAreaSize : result QSize :=
  let width := rect_width (viewport_rect d) in
  let rowWidth := width - spacing d * 2 in
  let last := rowCount (model d) in
  height <- calcScrolledAreaSize_for rowWidth (Z.to_nat (last - 0)) 0 (spacing d) ;;
  Ok (mkSize width height).

(** The loop of [visualRect]; a [return] inside the loop ends the
    function. *)
Fixpoint visualRect_while (fuel : nat) (r : QRect) (x width row : Z)
         (tmpRow y height : Z) : result QRect :=
  if tmpRow <? row then
    match fuel with
    | O => Fault OutOfFuel
    | S fuel' =>
        let y := y + (height + spacing d) in
        if y >? rect_height r then Ok QRect_null
        else
          let tmpRow := tmpRow + 1 in
          height <- heightForWidth (model d) tmpRow width ;;
          visualRect_while fuel' r x width row tmpRow y height
    end
  else Ok (rect_intersected r (QRect_xywh x y width height)).

Definition visualRect (fuel : nat) (row : Z) : result QRect :=
  if row >=? firstVisibleRow d then
    let tmpRow := firstVisibleRow d in
    let r := viewport_rect d in
    let x := rect_x r + spacing d in
    let y := rect_y r + offset d in
    let width := rect_width r - spacing d * 2 in
    height <- heightForWidth (model d) tmpRow width ;;
    visualRect_while fuel r x width row tmpRow y height
  else Ok QRect_null.

(** The loop of [rowAt].  The source computes the row width from a
    rectangle [r] that is declared only inside the loop; as everywhere
    else in the file it is read as the rectangle of the viewport. *)
Fixpoint rowAt_while (fuel : nat) (p : QPoint) (x width : Z) (row y : Z)
  : result Z :=
  if (row >=? 0) && (row <? rowCount (model d)) then
    match fuel with
    | O => Fault OutOfFuel
    | S fuel' =>
        height <- heightForWidth (model d) row width ;;
        let r := QRect_xywh x y width height in
        if rect_contains r p false then Ok row
        else if Z.abs y + height + spacing d >? Z.abs (pt_y p) then Ok (-1)
        else
          let row' := if pt_y p <? y then row - 1 else row + 1 in
          let y' := y + (if pt_y p <? y
                         then - (height + spacing d)
                         else height + spacing d) in
          rowAt_while fuel' p x width row' y'
    end
  else Ok (-1).

Definition rowAt (fuel : nat) (p : QPoint) : result Z :=
  let row := firstVisibleRow d in
  let x := spacing d in
  let y := offset d in
  let width := rect_width (viewport_rect d) - spacing d * 2 in
  if (pt_x p <? x) || (pt_x p >? x + width) then Ok (-1)
  else rowAt_while fuel p x width row y.

End Probe.

(** ** Offset normaliser and scroll planner *)

Section Normalizer.

Variable d : ListViewPrivate.

Fixpoint maxOffset_while (fuel : nat) (r : QRect) (width : Z) (row y : Z)
  : result (Z * Z) :=
  if (y <? rect_height r) && (row >=? 0) then
    match fuel with
    | O => Fault OutOfFuel
    | S fuel' =>
        h <- heightForWidth (model d) row width ;;
        maxOffset_while fuel' r width (row - 1) (y + (h + spacing d))
    end
  else Ok (row, y).

Definition maxOffset (fuel : nat) : result Z :=
  let r := viewport_rect d in
  let width := rect_width r - spacing d * 2 in
  let row := rowCount (model d) - 1 in
  let y := 0 in
  ry <- maxOffset_while fuel r width row y ;;
  let y := snd ry in
  if y >? rect_height r then Ok (rect_height r - y - 1)
  else Ok 0.

Fixpoint calculateScroll_up (fuel : nat) (width row : Z) (tmpRow delta : Z)
  : result Z :=
  if tmpRow >=? row then
    match fuel with
    | O => Fault OutOfFuel
    | S fuel' =>
        h <- heightForWidth (model d) tmpRow width ;;
        calculateScroll_up fuel' width row (tmpRow - 1) (delta + (spacing d + h))
    end
  else Ok delta.

Fixpoint calculateScroll_down (fuel : nat) (width row : Z) (tmpRow delta : Z)
  : result Z :=
  if tmpRow <? row then
    match fuel with
    | O => Fault OutOfFuel
    | S fuel' =>
        h <- heightForWidth (model d) tmpRow width ;;
        calculateScroll_down fuel' width row (tmpRow + 1) (delta - (h + spacing d))
    end
  else Ok delta.

Definition calculateScroll (fuel : nat) (row expectedOffset : Z) : result Z :=
  let width := sz_width (viewport d) - spacing d * 2 in
  let delta := - offset d + expectedOffset in
  let tmpRow := firstVisibleRow d in
  if tmpRow >? row then
    let tmpRow := tmpRow - 1 in
    calculateScroll_up fuel width row tmpRow delta
  else if tmpRow <? row then
    calculateScroll_down fuel width row tmpRow delta
  else Ok delta.

Fixpoint canScrollDown_while (fuel : nat) (r : QRect) (width : Z) (row y : Z)
  : result (Z * Z) :=
  if (y <? rect_y r + rect_height r) && (row <? rowCount (model d)) then
    match fuel with
    | O => Fault OutOfFuel
    | S fuel' =>
        h <- heightForWidth (model d) row width ;;
        canScrollDown_while fuel' r width (row + 1) (y + (h + spacing d))
    end
  else Ok (row, y).

Definition canScrollDown (fuel : nat) (row : Z) : result bool :=
  if row =? -1 then Ok false
  else
    let r := viewport_rect d in
    let y := rect_y r + spacing d in
    let width := rect_width r - spacing d * 2 in
    ry <- canScrollDown_while fuel r width row y ;;
    let row := fst ry in
    if row <? rowCount (model d) then Ok true else Ok false.

(** The loop of the branch [offset > 0] of [normalizeOffset]. *)
Fixpoint normalizeOffset_up (fuel : nat) (width : Z) (row offset : Z)
  : result (Z * Z) :=
  if offset >? 0 then
    match fuel with
    | O => Fault OutOfFuel
    | S fuel' =>
        h <- heightForWidth (model d) row width ;;
        let delta := h + spacing d in
        let offset := offset - delta in
        if negb (row =? 0) then normalizeOffset_up fuel' width (row - 1) offset
        else Ok (row, 0)
    end
  else Ok (row, offset).

(** The loop of the branch [offset < 0] of [normalizeOffset]. *)
Fixpoint normalizeOffset_down (fuel : nat) (width : Z) (row offset height : Z)
  : result (Z * Z) :=
  if Z.abs offset >? height + spacing d then
    match fuel with
    | O => Fault OutOfFuel
    | S fuel' =>
        let delta := height + spacing d in
        let offset := offset + delta in
        if row <? rowCount (model d) - 1 then
          let row := row + 1 in
          height <- heightForWidth (model d) row width ;;
          normalizeOffset_down fuel' width row offset height
        else Ok (row, 0)
    end
  else Ok (row, offset).

(** [normalizeOffset( int & row, int & offset )]: the two references are
    returned as a pair. *)
Definition normalizeOffset (fuel : nat) (row offset : Z) : result (Z * Z) :=
  if offset >? 0 then
    if row >? 0 then
      let width := rect_width (viewport_rect d) - spacing d * 2 in
      normalizeOffset_up fuel width row offset
    else Ok (row, 0)
  else if offset <? 0 then
    b <- canScrollDown fuel row ;;
    if b then
      let width := rect_width (viewport_rect d) - spacing d * 2 in
      height <- heightForWidth (model d) row width ;;
      normalizeOffset_down fuel width row offset height
    else
      max <- maxOffset fuel ;;
      if offset <? max then Ok (row, max) else Ok (row, offset)
  else Ok (row, offset).

(** The body of the [for] loop of [updateIfNeeded]: [true] as soon as a
    row of the range has a visual rectangle. *)
Fixpoint updateIfNeeded_for (fuel : nat) (n : nat) (i : Z) : result bool :=
  match n with
  | O => Ok false
  | S n' =>
      r <- visualRect d fuel i ;;
      if negb (rect_isNull r) then Ok true
      else updateIfNeeded_for fuel n' (i + 1)
  end.

End Normalizer.

(** ** Slots and requests *)

Definition updateIfNeeded (fuel : nat) (firstRow lastRow : Z) : View bool :=
  fun d =>
    match updateIfNeeded_for d fuel (Z.to_nat (lastRow - firstRow + 1)) firstRow with
    | Ok true => (viewport_update d, Ok true)
    | Ok false => (d, Ok false)
    | Fault f => (d, Fault f)
    end.

(** [scrollContentsBy( int dx, int dy )]. *)
Definition scrollContentsBy (fuel : nat) (dx dy : Z) : View unit :=
  vmodify (fun d => set_offset d (offset d + dy)) ;;;
  ro <~ vread (fun d => normalizeOffset d fuel (firstVisibleRow d) (offset d)) ;;
  vmodify (fun d => set_offset (set_firstVisibleRow d (fst ro)) (snd ro)).

(** Modelled from the spec: [abstractscrollarea.hpp] is not part of the
    sources at hand.  The view sets the total scrollable extent on the
    surface (spec, section 6), which keeps it. *)
Definition setScrolledAreaSize (s : QSize) : View unit :=
  vmodify (fun d => set_scrolledAreaSize d s).

Definition recalculateSize : View unit :=
  s <~ vread calcScrolledAreaSize ;;
  setScrolledAreaSize s.

Definition dataChanged (fuel : nat) (first last : Z) : View unit :=
  updateIfNeeded fuel first last ;;; vret tt.

Definition modelReset : View unit :=
  vmodify (fun d => set_firstVisibleRow d (-1)) ;;;
  vmodify (fun d => set_offset d 0) ;;;
  recalculateSize ;;;
  vmodify viewport_update.

Definition rowsInserted (fuel : nat) (first last : Z) : View unit :=
  vmodify (fun d =>
             if firstVisibleRow d =? -1
             then set_firstVisibleRow d 0
             else d) ;;;
  recalculateSize ;;;
  updateIfNeeded fuel first last ;;; vret tt.

(** The first statement of [rowsRemoved], the [if] that re-anchors. *)
Definition rowsRemoved_reanchor (first last : Z) (d : ListViewPrivate)
  : ListViewPrivate :=
  if (firstVisibleRow d >=? first) && (firstVisibleRow d <=? last) then
    if negb (rowCount (model d) =? 0) then
      let d := if first - 1 >=? 0
               then set_firstVisibleRow d (first - 1)
               else set_firstVisibleRow d (last + 1) in
      set_offset d 0
    else
      set_offset (set_firstVisibleRow d (-1)) 0
  else d.

Definition rowsRemoved (fuel : nat) (first last : Z) : View unit :=
  vmodify (rowsRemoved_reanchor first last) ;;;
  recalculateSize ;;;
  updateIfNeeded fuel first last ;;; vret tt.

Definition rowsMoved (fuel : nat) (sourceStart sourceEnd destinationRow : Z)
  : View unit :=
  vmodify (fun d =>
             if ((firstVisibleRow d >=? sourceStart)
                 && (firstVisibleRow d <=? sourceEnd))
                || ((firstVisibleRow d >=? destinationRow)
                    && (firstVisibleRow d <=? destinationRow + sourceEnd - sourceStart))
             then set_offset d 0
             else d) ;;;
  u <~ updateIfNeeded fuel sourceStart sourceEnd ;;
  if negb u
  then updateIfNeeded fuel destinationRow
         (destinationRow + sourceEnd - sourceStart) ;;; vret tt
  else vret tt.

(** Modelled from the spec: [abstractscrollarea.hpp] is not part of the
    sources at hand.  The scrollable surface consumes the requested
    position of the shown area and reports the pan delta it realised back
    to the view, which applies it to [offset] and normalises (spec,
    section 4.3 and 6): the delta is the change of the position. *)
Definition setTopLeftPointShownArea (fuel : nat) (p : QPoint) : View unit :=
  fun d =>
    let dx := pt_x p - pt_x (topLeftPointShownArea d) in
    let dy := pt_y p - pt_y (topLeftPointShownArea d) in
    scrollContentsBy fuel dx dy (set_topLeftPointShownArea d p).

Inductive ScrollHint : Type :=
| EnsureVisible
| PositionAtTop
| PositionAtBottom
| PositionAtCenter.

(** The three lines shared by every branch of [scrollTo]: plan the delta
    for [expected] and move the shown area by it. *)
Definition scrollTo_move (fuel : nat) (row expected : Z) : View unit :=
  delta <~ vread (fun d => calculateScroll d fuel row expected) ;;
  p <~ vread (fun d => Ok (topLeftPointShownArea d)) ;;
  setTopLeftPointShownArea fuel (mkPoint (pt_x p) (pt_y p + delta)).

Definition scrollTo (fuel : nat) (row : Z) (hint : ScrollHint) : View unit :=
  fun d =>
    if (row >=? 0) && (row <? rowCount (model d)) then
      match hint with
      | EnsureVisible =>
          (vr <~ vread (fun d => visualRect d fuel row) ;;
           if negb (rect_isNull vr) then vret tt
           else
             let offset := -1 in
             scrollTo_move fuel row offset) d
      | PositionAtTop =>
          (let offset := -1 in
           scrollTo_move fuel row offset) d
      | PositionAtBottom =>
          (let r := viewport_rect d in
           h <~ vread (fun d => heightForWidth (model d) row
                                  (rect_width r - spacing d * 2)) ;;
           let offset := rect_y r + rect_height r - h - spacing d - 1 in
           scrollTo_move fuel row offset) d
      | PositionAtCenter =>
          (let r := viewport_rect d in
           h <~ vread (fun d => heightForWidth (model d) row
                                  (rect_width r - spacing d * 2)) ;;
           let offset := rect_y r + Z.quot (rect_height r) 2 - Z.quot h 2 in
           scrollTo_move fuel row offset) d
      end
    else (d, Ok tt).

(** ** The reference walk of the specification

    The backward walk of the offset normaliser as the specification words
    it: while [offset > 0] and [anchorRow > 0], decrement [anchorRow] and
    subtract the extent of the new anchor row; at row [0] a positive
    [offset] is clamped to [0]. *)

Fixpoint normalizeUp_reference (fuel : nat) (m : ListModel) (width spacing : Z)
         (anchorRow offset : Z) : result (Z * Z) :=
  if (offset >? 0) && (anchorRow >? 0) then
    match fuel with
    | O => Fault OutOfFuel
    | S fuel' =>
        let anchorRow := anchorRow - 1 in
        h <- heightForWidth m anchorRow width ;;
        normalizeUp_reference fuel' m width spacing anchorRow
          (offset - (h + spacing))
    end
  else if offset >? 0 then Ok (anchorRow, 0)
  else Ok (anchorRow, offset).

(** ** Heights and extents *)

(** The height of a row of the collection, [0] outside it. *)
Definition rowHeight (m : ListModel) (row width : Z) : Z :=
  match heightForWidth m row width with
  | Ok h => h
  | Fault _ => 0
  end.

(** The extent of the [n] rows from [row] on: each height plus one gap. *)
Fixpoint extent (m : ListModel) (width spacing : Z) (row : Z) (n : nat) : Z :=
  match n with
  | O => 0
  | S n' => (rowHeight m row width + spacing) + extent m width spacing (row + 1) n'
  end.

(** The sum over all rows of the collection of height plus one gap. *)
Definition sumRows (m : ListModel) (width spacing : Z) : Z :=
  fold_right Z.add 0 (map (fun r : Row => r width + spacing) m).

(** The width handed to the model: the viewport without the two side gaps. *)
Definition rowWidth (d : ListViewPrivate) : Z :=
  sz_width (viewport d) - spacing d * 2.

(** The invariants of the viewport state (spec, section 3).  The anchor is
    [-1] exactly for the empty collection and a row of the collection
    otherwise; [offset] is never positive; the anchor row is not scrolled
    out above the window by more than its own extent; and where no later
    row exists (the anchor is the last row, or the collection is empty),
    [offset] is not below the maximum offset.  [maxOffset] is run with the
    number of rows as fuel, which lets it finish. *)
Definition normalized (d : ListViewPrivate) : Prop :=
  let row := firstVisibleRow d in
  let fuel := length (model d) in
  (row = -1 <-> rowCount (model d) = 0)
  /\ -1 <= row < rowCount (model d)
  /\ offset d <= 0
  /\ (0 <= row -> - offset d <= rowHeight (model d) row (rowWidth d) + spacing d)
  /\ (row = rowCount (model d) - 1 ->
      forall max, maxOffset d fuel = Ok max -> max <= offset d).

(** Every row of the collection has a non-negative height for the row
    width of the view (spec, section 3). *)
Definition heightsNonNegative (d : ListViewPrivate) : Prop :=
  Forall (fun r : Row => 0 <= r (rowWidth d)) (model d).

(** Laid out from the window top, some row at or after [row] starts at or
    below the bottom edge of the window: there is something to scroll down
    to. *)
Definition rowsBeyondWindow (d : ListViewPrivate) (row : Z) : Prop :=
  exists n : nat,
    row + Z.of_nat n < rowCount (model d)
    /\ sz_height (viewport d)
       <= spacing d + extent (model d) (rowWidth d) (spacing d) row n.

Definition rows3 : ListModel := [fun _ => 50; fun _ => 80; fun _ => 30].

(** A view of [200 x height] pixels on [m] with spacing [5]. *)
Definition view5 (m : ListModel) (height row off : Z) : ListViewPrivate :=
  mkD m 5 (mkSize 200 height) row off (mkSize 0 0) (mkPoint 0 0) 0.


Definition rows4 : ListModel :=
  [fun _ => 50; fun _ => 80; fun _ => 30; fun _ => 40].

(** ** Renderer *)

Section Renderer.

Variable d : ListViewPrivate.

(** The loop of [Viewport::drawListView]; the calls of [drawRow] are
    collected in the order they are made, each with its rectangle and its
    row. *)
Fixpoint drawListView_while (fuel : nat) (r : QRect) (x : Z) (row y : Z)
  : result (list (QRect * Z)) :=
  if (y <? rect_y r + rect_height r) && (row <? rowCount (model d)) then
    match fuel with
    | O => Fault OutOfFuel
    | S fuel' =>
        let width := rect_width r - spacing d * 2 in
        height <- heightForWidth (model d) row width ;;
        let rowRect := QRect_xywh x y width height in
        rest <- drawListView_while fuel' r x (row + 1) (y + (height + spacing d)) ;;
        Ok ((rowRect, row) :: rest)
    end
  else Ok [].

Definition drawListView (fuel : nat) : result (list (QRect * Z)) :=
  let row := firstVisibleRow d in
  let r := viewport_rect d in
  let x := spacing d in
  let y := offset d + spacing d in
  if row >=? 0 then drawListView_while fuel r x row y
  else Ok [].

End Renderer.

(** The [k]-th row laid out from [row] on with the top of [row] at [y]:
    its rectangle and its index. *)
Definition laidOutRow (d : ListViewPrivate) (row y : Z) (k : nat) : QRect * Z :=
  (QRect_xywh (spacing d)
     (y + extent (model d) (rowWidth d) (spacing d) row k)
     (rowWidth d)
     (rowHeight (model d) (row + Z.of_nat k) (rowWidth d)),
   row + Z.of_nat k).

(** Modelled from the spec: the collection after the rows [new] have been
    inserted before the row at index [first]; the notification
    [rowsInserted( first, first + length - 1 )] is delivered once this has
    happened. *)
Definition insertRows (m : ListModel) (first : Z) (new : list Row) : ListModel :=
  firstn (Z.to_nat first) m ++ new ++ skipn (Z.to_nat first) m.

(** The size [calcScrolledAreaSize] computes: the width of the viewport
    and one leading gap plus the extent of all rows. *)
Definition totalSize (d : ListViewPrivate) : QSize :=
  mkSize (sz_width (viewport d))
         (spacing d + sumRows (model d) (rowWidth d) (spacing d)).

(** The offset [scrollTo] plans for a row under each hint: the local
    [offset] of the branches of its [switch], with the rectangle of the
    viewport at the origin. *)
Definition expectedOffset (d : ListViewPrivate) (row : Z) (hint : ScrollHint) : Z :=
  match hint with
  | EnsureVisible => -1
  | PositionAtTop => -1
  | PositionAtBottom =>
      sz_height (viewport d) - rowHeight (model d) row (rowWidth d)
      - spacing d - 1
  | PositionAtCenter =>
      Z.quot (sz_height (viewport d)) 2
      - Z.quot (rowHeight (model d) row (rowWidth d)) 2
  end.

(** ** Basic facts *)

Lemma heightForWidth_in_range (m : ListModel) (row width : Z) :
  0 <= row < rowCount m ->
  heightForWidth m row width = Ok (rowHeight m row width).
Proof.
  intros Hr. unfold rowHeight, heightForWidth, rowCount in *.
  destruct (row <? 0) eqn:E; [apply Z.ltb_lt in E; lia|].
  destruct (nth_error m (Z.to_nat row)) eqn:N; [reflexivity|].
  apply nth_error_None in N. lia.
Qed.

Lemma heightForWidth_out_of_range (m : ListModel) (row width : Z) :
  row < 0 \/ rowCount m <= row ->
  heightForWidth m row width = Fault (OutOfRange row).
Proof.
  intros Hr. unfold heightForWidth, rowCount in *.
  destruct (row <? 0) eqn:E; [reflexivity|]. apply Z.ltb_ge in E.
  destruct (nth_error m (Z.to_nat row)) eqn:N; [|reflexivity].
  assert (nth_error m (Z.to_nat row) <> None) as H by congruence.
  apply nth_error_Some in H. lia.
Qed.

Lemma viewport_rect_width (d : ListViewPrivate) :
  rect_width (viewport_rect d) = sz_width (viewport d).
Proof. unfold rect_width, viewport_rect, QRect_xywh; simpl; lia. Qed.

Lemma viewport_rect_height (d : ListViewPrivate) :
  rect_height (viewport_rect d) = sz_height (viewport d).
Proof. unfold rect_height, viewport_rect, QRect_xywh; simpl; lia. Qed.

Lemma rowCount_nonneg (m : ListModel) : 0 <= rowCount m.
Proof. unfold rowCount; lia. Qed.

(** ** Total extent *)

Lemma calcScrolledAreaSize_for_sum (d : ListViewPrivate) (width : Z) :
  forall (rest done : list Row) (height : Z),
    model d = done ++ rest ->
    calcScrolledAreaSize_for d width (length rest) (Z.of_nat (length done)) height
    = Ok (height + sumRows rest width (spacing d)).
Proof.
  induction rest as [|r rest IH]; intros done height Hm; simpl.
  - f_equal. unfold sumRows; simpl; lia.
  - unfold heightForWidth.
    destruct (Z.of_nat (length done) <? 0) eqn:E; [apply Z.ltb_lt in E; lia|].
    rewrite Nat2Z.id, Hm, nth_error_app2 by lia.
    rewrite Nat.sub_diag. simpl.
    replace (Z.of_nat (length done) + 1) with (Z.of_nat (length (done ++ [r])))
      by (rewrite length_app; simpl; lia).
    rewrite IH by (rewrite <- app_assoc; exact Hm).
    f_equal. unfold sumRows; simpl; lia.
Qed.

(** C6.  For every collection and every viewport, the height of the
    scrolled area computed by [calcScrolledAreaSize] is [spacing] plus the
    sum over all rows of the row's height for the row width plus [spacing];
    its width is the width of the viewport.  [recalculateSize], which the
    slots for structural changes and the resize handler call, stores
    exactly this size. *)
Theorem calcScrolledAreaSize_total_extent (d : ListViewPrivate) :
  let total := mkSize (sz_width (viewport d))
                 (spacing d + sumRows (model d) (rowWidth d) (spacing d)) in
  calcScrolledAreaSize d = Ok total
  /\ recalculateSize d = (set_scrolledAreaSize d total, Ok tt).
Proof.
  assert (calcScrolledAreaSize d
          = Ok (mkSize (sz_width (viewport d))
                  (spacing d + sumRows (model d) (rowWidth d) (spacing d))))
    as Hsize.
  { unfold calcScrolledAreaSize, rowWidth.
    rewrite viewport_rect_width.
    replace (Z.to_nat (rowCount (model d) - 0)) with (length (model d))
      by (unfold rowCount; lia).
    rewrite (calcScrolledAreaSize_for_sum d _ (model d) [] (spacing d) eq_refl).
    reflexivity. }
  split; [exact Hsize|].
  unfold recalculateSize, setScrolledAreaSize, vbind, vread, vmodify.
  rewrite Hsize. reflexivity.
Qed.

(** ** Fuel *)

Lemma canScrollDown_while_fuel_mono (d : ListViewPrivate) (r : QRect) (width : Z) :
  forall (fuel fuel' : nat) (row y : Z) (v : Z * Z),
    (fuel <= fuel')%nat ->
    canScrollDown_while d fuel r width row y = Ok v ->
    canScrollDown_while d fuel' r width row y = Ok v.
Proof.
  induction fuel as [|fuel IH]; intros fuel' row y v Hle H.
  - destruct fuel'; simpl in *;
      destruct ((y <? rect_y r + rect_height r) && (row <? rowCount (model d)));
      congruence.
  - destruct fuel' as [|fuel']; [lia|]. simpl in *.
    destruct ((y <? rect_y r + rect_height r) && (row <? rowCount (model d)));
      [|exact H].
    destruct (heightForWidth (model d) row width); simpl in *; [|discriminate].
    apply IH; [lia|exact H].
Qed.

Lemma maxOffset_while_fuel_mono (d : ListViewPrivate) (r : QRect) (width : Z) :
  forall (fuel fuel' : nat) (row y : Z) (v : Z * Z),
    (fuel <= fuel')%nat ->
    maxOffset_while d fuel r width row y = Ok v ->
    maxOffset_while d fuel' r width row y = Ok v.
Proof.
  induction fuel as [|fuel IH]; intros fuel' row y v Hle H.
  - destruct fuel'; simpl in *;
      destruct ((y <? rect_height r) && (row >=? 0)); congruence.
  - destruct fuel' as [|fuel']; [lia|]. simpl in *.
    destruct ((y <? rect_height r) && (row >=? 0)); [|exact H].
    destruct (heightForWidth (model d) row width); simpl in *; [|discriminate].
    apply IH; [lia|exact H].
Qed.

Lemma canScrollDown_while_terminates (d : ListViewPrivate) (r : QRect) (width : Z) :
  forall (fuel : nat) (row y : Z),
    0 <= row ->
    rowCount (model d) - row <= Z.of_nat fuel ->
    exists v, canScrollDown_while d fuel r width row y = Ok v.
Proof.
  induction fuel as [|fuel IH]; intros row y H0 Hf; simpl.
  - destruct (y <? rect_y r + rect_height r); simpl; [|eauto].
    destruct (row <? rowCount (model d)) eqn:E; [apply Z.ltb_lt in E; lia|eauto].
  - destruct (y <? rect_y r + rect_height r); simpl; [|eauto].
    destruct (row <? rowCount (model d)) eqn:E; [apply Z.ltb_lt in E|eauto].
    rewrite heightForWidth_in_range by lia. simpl.
    apply IH; lia.
Qed.

Lemma maxOffset_while_terminates (d : ListViewPrivate) (r : QRect) (width : Z) :
  forall (fuel : nat) (row y : Z),
    row < rowCount (model d) ->
    row + 1 <= Z.of_nat fuel ->
    exists v, maxOffset_while d fuel r width row y = Ok v.
Proof.
  induction fuel as [|fuel IH]; intros row y H0 Hf; simpl.
  - destruct (y <? rect_height r); simpl; [|eauto].
    destruct (row >=? 0) eqn:E; [apply Z.geb_le in E; lia|eauto].
  - destruct (y <? rect_height r); simpl; [|eauto].
    destruct (row >=? 0) eqn:E; [apply Z.geb_le in E|eauto].
    rewrite heightForWidth_in_range by lia. simpl.
    apply IH; lia.
Qed.

Lemma canScrollDown_fuel_mono (d : ListViewPrivate) (fuel fuel' : nat) (row : Z) (b : bool) :
  (fuel <= fuel')%nat ->
  canScrollDown d fuel row = Ok b -> canScrollDown d fuel' row = Ok b.
Proof.
  unfold canScrollDown. intros Hle H.
  destruct (row =? -1); [exact H|].
  destruct (canScrollDown_while d fuel _ _ row _) as [v|] eqn:E; [|discriminate].
  rewrite (canScrollDown_while_fuel_mono _ _ _ _ _ _ _ _ Hle E). exact H.
Qed.

Lemma maxOffset_fuel_mono (d : ListViewPrivate) (fuel fuel' : nat) (max : Z) :
  (fuel <= fuel')%nat ->
  maxOffset d fuel = Ok max -> maxOffset d fuel' = Ok max.
Proof.
  unfold maxOffset. intros Hle H.
  destruct (maxOffset_while d fuel _ _ _ _) as [v|] eqn:E; [|discriminate].
  rewrite (maxOffset_while_fuel_mono _ _ _ _ _ _ _ _ Hle E). exact H.
Qed.

Lemma canScrollDown_terminates (d : ListViewPrivate) (fuel : nat) (row : Z) :
  -1 <= row ->
  (length (model d) <= fuel)%nat ->
  exists b, canScrollDown d fuel row = Ok b.
Proof.
  intros Hr Hf. unfold canScrollDown.
  destruct (row =? -1) eqn:E; [eauto|]. apply Z.eqb_neq in E.
  destruct (canScrollDown_while_terminates d (viewport_rect d)
              (rect_width (viewport_rect d) - spacing d * 2) fuel row
              (rect_y (viewport_rect d) + spacing d)) as [v Hv];
    [lia|unfold rowCount; lia|].
  rewrite Hv. simpl. destruct (fst v <? rowCount (model d)); eauto.
Qed.

Lemma maxOffset_terminates (d : ListViewPrivate) (fuel : nat) :
  (length (model d) <= fuel)%nat ->
  exists max, maxOffset d fuel = Ok max.
Proof.
  intros Hf. unfold maxOffset.
  destruct (maxOffset_while_terminates d (viewport_rect d)
              (rect_width (viewport_rect d) - spacing d * 2) fuel
              (rowCount (model d) - 1) 0) as [v Hv];
    [lia|unfold rowCount; lia|].
  rewrite Hv. simpl. destruct (snd v >? rect_height (viewport_rect d)); eauto.
Qed.

(** ** Scrolling forward to a row *)

Lemma rowHeight_nonneg (d : ListViewPrivate) (row : Z) :
  heightsNonNegative d -> 0 <= rowHeight (model d) row (rowWidth d).
Proof.
  intros H. unfold rowHeight, heightForWidth.
  destruct (row <? 0); [lia|].
  destruct (nth_error (model d) (Z.to_nat row)) as [r|] eqn:E; [|lia].
  apply nth_error_In in E.
  unfold heightsNonNegative in H. rewrite Forall_forall in H.
  exact (H r E).
Qed.

Lemma extent_nonneg (d : ListViewPrivate) :
  heightsNonNegative d -> 0 <= spacing d ->
  forall (n : nat) (row : Z),
    0 <= extent (model d) (rowWidth d) (spacing d) row n.
Proof.
  intros Hh Hs. induction n as [|n IH]; intros row; simpl; [lia|].
  pose proof (rowHeight_nonneg d row Hh). specialize (IH (row + 1)). lia.
Qed.

Lemma calculateScroll_down_extent (d : ListViewPrivate) (width : Z) :
  forall (n fuel : nat) (tmpRow delta : Z),
    0 <= tmpRow ->
    tmpRow + Z.of_nat n <= rowCount (model d) ->
    (n <= fuel)%nat ->
    calculateScroll_down d fuel width (tmpRow + Z.of_nat n) tmpRow delta
    = Ok (delta - extent (model d) width (spacing d) tmpRow n).
Proof.
  induction n as [|n IH]; intros fuel tmpRow delta H0 Hn Hf.
  - destruct fuel; simpl; rewrite Z.add_0_r, Z.ltb_irrefl; f_equal; lia.
  - destruct fuel as [|fuel]; [lia|].
    replace (tmpRow + Z.of_nat (S n)) with (tmpRow + 1 + Z.of_nat n) in * by lia.
    simpl calculateScroll_down.
    destruct (tmpRow <? tmpRow + 1 + Z.of_nat n) eqn:E;
      [|apply Z.ltb_ge in E; lia].
    rewrite heightForWidth_in_range by lia. simpl rbind.
    rewrite IH by lia. simpl extent. f_equal. lia.
Qed.

Lemma calculateScroll_forward (d : ListViewPrivate) (fuel : nat) (row expected : Z) :
  0 <= firstVisibleRow d <= row ->
  row < rowCount (model d) ->
  (length (model d) <= fuel)%nat ->
  calculateScroll d fuel row expected
  = Ok (- offset d + expected
        - extent (model d) (rowWidth d) (spacing d) (firstVisibleRow d)
            (Z.to_nat (row - firstVisibleRow d))).
Proof.
  intros Ha Hr Hf. unfold calculateScroll. fold (rowWidth d).
  destruct (firstVisibleRow d >? row) eqn:E1; [apply Z.gtb_lt in E1; lia|].
  destruct (firstVisibleRow d <? row) eqn:E2.
  - apply Z.ltb_lt in E2.
    replace row with (firstVisibleRow d + Z.of_nat (Z.to_nat (row - firstVisibleRow d)))
      at 1 by lia.
    apply calculateScroll_down_extent; unfold rowCount in *; lia.
  - apply Z.ltb_ge in E2.
    replace (row - firstVisibleRow d) with 0 by lia. simpl. f_equal. lia.
Qed.

Lemma viewport_rect_y (d : ListViewPrivate) : rect_y (viewport_rect d) = 0.
Proof. reflexivity. Qed.

Lemma canScrollDown_while_beyond (d : ListViewPrivate) :
  forall (n fuel : nat) (row y : Z),
    0 <= row ->
    row + Z.of_nat n < rowCount (model d) ->
    sz_height (viewport d) <= y + extent (model d) (rowWidth d) (spacing d) row n ->
    (n <= fuel)%nat ->
    exists v,
      canScrollDown_while d fuel (viewport_rect d) (rowWidth d) row y = Ok v
      /\ fst v < rowCount (model d).
Proof.
  induction n as [|n IH]; intros fuel row y H0 Hn Hy Hf.
  - simpl in Hy. exists (row, y).
    assert ((y <? sz_height (viewport d)) = false) as E by (apply Z.ltb_ge; lia).
    destruct fuel; cbn [canScrollDown_while];
      rewrite viewport_rect_height, viewport_rect_y, Z.add_0_l, E;
      simpl; (split; [reflexivity|lia]).
  - destruct fuel as [|fuel]; [lia|]. cbn [canScrollDown_while].
    rewrite viewport_rect_height, viewport_rect_y, Z.add_0_l.
    destruct (y <? sz_height (viewport d)) eqn:E.
    + assert ((row <? rowCount (model d)) = true) as E2 by (apply Z.ltb_lt; lia).
      rewrite E2. simpl andb. cbv iota.
      rewrite heightForWidth_in_range by lia. simpl rbind.
      apply IH; try lia.
      simpl in Hy. lia.
    + simpl. exists (row, y). simpl. split; [reflexivity|lia].
Qed.

Lemma canScrollDown_beyond (d : ListViewPrivate) (fuel : nat) (row : Z) :
  0 <= row ->
  rowsBeyondWindow d row ->
  (length (model d) <= fuel)%nat ->
  canScrollDown d fuel row = Ok true.
Proof.
  intros H0 (n & Hn & Hy) Hf. unfold canScrollDown.
  destruct (row =? -1) eqn:E; [apply Z.eqb_eq in E; lia|].
  rewrite viewport_rect_width. fold (rowWidth d).
  destruct (canScrollDown_while_beyond d n fuel row
              (rect_y (viewport_rect d) + spacing d)) as (v & Hv & Hlt);
    try assumption.
  - unfold rowCount in Hn. lia.
  - rewrite Hv. simpl. apply Z.ltb_lt in Hlt. rewrite Hlt. reflexivity.
Qed.



Lemma visualRect_anchor (d : ListViewPrivate) (fuel : nat) :
  0 <= firstVisibleRow d < rowCount (model d) ->
  visualRect d fuel (firstVisibleRow d)
  = Ok (rect_intersected (viewport_rect d)
          (QRect_xywh (spacing d) (offset d) (rowWidth d)
             (rowHeight (model d) (firstVisibleRow d) (rowWidth d)))).
Proof.
  intros Hr. unfold visualRect.
  destruct (firstVisibleRow d >=? firstVisibleRow d) eqn:E;
    [|rewrite Z.geb_leb in E; apply Z.leb_gt in E; lia].
  rewrite viewport_rect_width. fold (rowWidth d).
  rewrite heightForWidth_in_range by lia. simpl rbind.
  destruct fuel; simpl; rewrite Z.ltb_irrefl; reflexivity.
Qed.


(** ** Where the code leaves the specification *)

(** C1.  The backward walk of [normalizeOffset] subtracts the extent of the
    row it leaves, not of the row it moves to.  With rows of heights 50, 80
    and 30, spacing 5, the anchor at row 1 with [offset = 0] and a pan by
    [dy = 10], the code ends at row 0 with [offset = 10 - (80 + 5) = -75];
    the reference walk of the specification ends at row 0 with
    [offset = 10 - (50 + 5) = -45]. *)
Theorem normalizeOffset_up_subtracts_old_row :
  let d := view5 rows3 100 1 0 in
  let d' := fst (scrollContentsBy 3 0 10 d) in
  snd (scrollContentsBy 3 0 10 d) = Ok tt
  /\ (firstVisibleRow d', offset d') = (0, -75)
  /\ normalizeUp_reference 3 (model d) (rowWidth d) (spacing d)
       (firstVisibleRow d) (offset d + 10) = Ok (0, -45).
Proof. vm_compute. repeat split. Qed.

(** C2.  The forward walk of [normalizeOffset] never consults [maxOffset].
    With rows of heights 50, 80 and 30, spacing 5 and a window of height
    100 the maximum offset is [-21].  From row 0 and [offset = 0], a pan by
    [dy = -170] ends on the last row with [offset = -30], below the maximum
    offset; a pan by [dy = -200] ends on the last row with [offset = 0]. *)
Theorem normalizeOffset_down_ignores_maxOffset :
  let d := view5 rows3 100 0 0 in
  let d1 := fst (scrollContentsBy 3 0 (-170) d) in
  let d2 := fst (scrollContentsBy 3 0 (-200) d) in
  maxOffset d 3 = Ok (-21)
  /\ snd (scrollContentsBy 3 0 (-170) d) = Ok tt
  /\ firstVisibleRow d1 = rowCount (model d) - 1
  /\ offset d1 = -30
  /\ snd (scrollContentsBy 3 0 (-200) d) = Ok tt
  /\ firstVisibleRow d2 = rowCount (model d) - 1
  /\ offset d2 = 0.
Proof. vm_compute. repeat split. Qed.

(** C3.  [rowsRemoved] can leave an anchor that is no row of the
    collection.  Three rows, the anchor at row 0; rows 0 and 1 are removed
    and [rowsRemoved( 0, 1 )] runs on the remaining single row: the slot
    finishes with [firstVisibleRow = 2] while [rowCount = 1]. *)
Theorem rowsRemoved_anchor_out_of_range :
  let d := view5 rows3 100 0 0 in
  let removed := rowsRemoved 3 0 1 (set_model d (removeRows (model d) 0 1)) in
  snd removed = Ok tt
  /\ rowCount (model (fst removed)) = 1
  /\ firstVisibleRow (fst removed) = 2
  /\ ~ (firstVisibleRow (fst removed) = -1
        \/ 0 <= firstVisibleRow (fst removed) <= rowCount (model (fst removed)) - 1).
Proof.
  vm_compute. repeat split; try reflexivity.
  intros [H|[_ H]]; [discriminate|apply H; reflexivity].
Qed.

(** C5.  With [first = 0] and rows remaining, [rowsRemoved] re-anchors to
    [last + 1] as it is, without clamping it to a row of the collection.
    Four rows, the anchor at row 1; rows 0 to 2 are removed and
    [rowsRemoved( 0, 2 )] runs on the remaining single row: the slot sets
    [offset = 0] and [firstVisibleRow = last + 1 = 3], although row 0 is
    the only row. *)
Theorem rowsRemoved_last_plus_one_unclamped :
  let d := view5 rows4 100 1 (-10) in
  let removed := rowsRemoved 4 0 2 (set_model d (removeRows (model d) 0 2)) in
  snd removed = Ok tt
  /\ rowCount (model (fst removed)) = 1
  /\ offset (fst removed) = 0
  /\ firstVisibleRow (fst removed) = 3.
Proof. vm_compute. repeat split. Qed.

(** C7.  [rowAt] gives up on a point inside a visible row.  With rows of
    heights 50, 80 and 30, spacing 5, a window of 200 x 100 and the state
    [firstVisibleRow = 0], [offset = -30] (reached from the top by a pan of
    [-30], and normalised), the point [(10, 30)] lies strictly inside
    [visualRect( 1 )], yet [rowAt] answers [-1]. *)
Theorem rowAt_misses_visible_row :
  let d := view5 rows3 100 0 (-30) in
  let p := mkPoint 10 30 in
  scrollContentsBy 3 0 (-30) (view5 rows3 100 0 0) = (d, Ok tt)
  /\ normalized d
  /\ (exists vr, visualRect d 3 1 = Ok vr /\ rect_contains vr p true = true)
  /\ rowAt d 3 p = Ok (-1).
Proof.
  cbv zeta. split; [vm_compute; reflexivity|]. split.
  - unfold normalized. cbv zeta. repeat split; try (vm_compute; congruence).
  - split; [|vm_compute; reflexivity].
    eexists. split; vm_compute; reflexivity.
Qed.

(** C8.  Normalisation is not idempotent, not even on its own results.
    With rows of heights 50, 80 and 30, spacing 5 and a window of
    200 x 100, a pan by [dy = -80] from the top ends in the state
    [firstVisibleRow = 1], [offset = -25], which satisfies the invariants
    of the viewport state; a pan by [dy = 0] then moves the offset to
    [-21]: the forward walk stopped without looking at [maxOffset], and
    the next call, which finds that [canScrollDown] fails, clamps. *)
Theorem normalizeOffset_moves_normalised_state :
  let d := view5 rows3 100 0 0 in
  let d1 := fst (scrollContentsBy 3 0 (-80) d) in
  let d2 := fst (scrollContentsBy 3 0 0 d1) in
  snd (scrollContentsBy 3 0 (-80) d) = Ok tt
  /\ (firstVisibleRow d1, offset d1) = (1, -25)
  /\ normalized d1
  /\ snd (scrollContentsBy 3 0 0 d1) = Ok tt
  /\ (firstVisibleRow d2, offset d2) = (1, -21)
  /\ normalizeOffset d1 3 (firstVisibleRow d1) (offset d1) = Ok (1, -21).
Proof.
  cbv zeta. split; [vm_compute; reflexivity|]. split; [vm_compute; reflexivity|].
  split.
  - unfold normalized. cbv zeta. repeat split; try (vm_compute; congruence).
  - repeat split; vm_compute; reflexivity.
Qed.

(** C9.  [visualRect] has no guard against a row index past the last row
    (or against the anchor [-1] of the empty collection) and queries the
    model outside [0, rowCount).  Three rows in a window of height 1000:
    [visualRect( 5 )] asks the model for the height of row 3.  On the
    empty collection [visualRect( 0 )] asks for the height of row [-1]. *)
Theorem visualRect_queries_out_of_range :
  visualRect (view5 rows3 1000 0 0) 6 5 = Fault (OutOfRange 3)
  /\ visualRect (view5 [] 100 (-1) 0) 1 0 = Fault (OutOfRange (-1)).
Proof. vm_compute. split; reflexivity. Qed.

(** ** Removal outside the anchor *)

Lemma recalculateSize_anchor (d : ListViewPrivate) :
  firstVisibleRow (fst (recalculateSize d)) = firstVisibleRow d
  /\ offset (fst (recalculateSize d)) = offset d
  /\ model (fst (recalculateSize d)) = model d.
Proof.
  unfold recalculateSize, setScrolledAreaSize, vbind, vread, vmodify.
  destruct (calcScrolledAreaSize d); simpl; auto.
Qed.

Lemma updateIfNeeded_anchor (d : ListViewPrivate) (fuel : nat) (firstRow lastRow : Z) :
  firstVisibleRow (fst (updateIfNeeded fuel firstRow lastRow d)) = firstVisibleRow d
  /\ offset (fst (updateIfNeeded fuel firstRow lastRow d)) = offset d
  /\ model (fst (updateIfNeeded fuel firstRow lastRow d)) = model d.
Proof.
  unfold updateIfNeeded.
  destruct (updateIfNeeded_for d fuel _ firstRow) as [[|]|]; simpl; auto.
Qed.

Lemma rowsRemoved_tail_anchor (d : ListViewPrivate) (fuel : nat) (first last : Z) :
  let r := (recalculateSize ;;; updateIfNeeded fuel first last ;;; vret tt) d in
  firstVisibleRow (fst r) = firstVisibleRow d
  /\ offset (fst r) = offset d
  /\ model (fst r) = model d.
Proof.
  intros r. subst r. unfold vbind, vret.
  pose proof (recalculateSize_anchor d) as (R1 & R2 & R3).
  destruct (recalculateSize d) as [d1 [[]|f]]; cbn [fst] in *;
    [|repeat split; assumption].
  pose proof (updateIfNeeded_anchor d1 fuel first last) as (U1 & U2 & U3).
  destruct (updateIfNeeded fuel first last d1) as [d2 [b|f]]; cbn [fst] in *;
    repeat split; congruence.
Qed.

Lemma rowsRemoved_after_reanchor (d : ListViewPrivate) (fuel : nat) (first last : Z) :
  firstVisibleRow (fst (rowsRemoved fuel first last d))
  = firstVisibleRow (rowsRemoved_reanchor first last d)
  /\ offset (fst (rowsRemoved fuel first last d))
     = offset (rowsRemoved_reanchor first last d)
  /\ model (fst (rowsRemoved fuel first last d))
     = model (rowsRemoved_reanchor first last d).
Proof.
  exact (rowsRemoved_tail_anchor (rowsRemoved_reanchor first last d) fuel first last).
Qed.

Lemma rowsRemoved_outside (d : ListViewPrivate) (fuel : nat) (first last : Z) :
  firstVisibleRow d < first \/ last < firstVisibleRow d ->
  firstVisibleRow (fst (rowsRemoved fuel first last d)) = firstVisibleRow d
  /\ offset (fst (rowsRemoved fuel first last d)) = offset d
  /\ model (fst (rowsRemoved fuel first last d)) = model d.
Proof.
  intros Hout.
  destruct (rowsRemoved_after_reanchor d fuel first last) as (H1 & H2 & H3).
  rewrite H1, H2, H3. unfold rowsRemoved_reanchor.
  replace ((firstVisibleRow d >=? first) && (firstVisibleRow d <=? last))
    with false; [auto|].
  symmetry; apply andb_false_iff; destruct Hout;
    [left; rewrite Z.geb_leb; apply Z.leb_gt|right; apply Z.leb_gt]; lia.
Qed.

(** What [rowsRemoved] does when the anchor lies in the removed range:
    [first - 1] where that is a row index, [last + 1] otherwise, [-1] for
    the empty collection, and [offset = 0] throughout. *)
Lemma rowsRemoved_inside (d : ListViewPrivate) (fuel : nat) (first last : Z) :
  first <= firstVisibleRow d <= last ->
  let d' := fst (rowsRemoved fuel first last d) in
  offset d' = 0
  /\ (rowCount (model d) <> 0 -> 0 < first -> firstVisibleRow d' = first - 1)
  /\ (rowCount (model d) <> 0 -> first <= 0 -> firstVisibleRow d' = last + 1)
  /\ (rowCount (model d) = 0 -> firstVisibleRow d' = -1).
Proof.
  intros Hin d'. subst d'.
  destruct (rowsRemoved_after_reanchor d fuel first last) as (H1 & H2 & _).
  rewrite H1, H2. unfold rowsRemoved_reanchor.
  replace ((firstVisibleRow d >=? first) && (firstVisibleRow d <=? last))
    with true
    by (symmetry; apply andb_true_iff; split;
        [rewrite Z.geb_leb|]; apply Z.leb_le; lia).
  destruct (Z.eqb_spec (rowCount (model d)) 0) as [E|E]; cbn [negb];
    [|destruct (Z.geb_spec (first - 1) 0)]; cbn;
    repeat split; try reflexivity; intros; lia.
Qed.

Lemma removeRows_above (m : ListModel) (first last row : Z) :
  0 <= first <= last -> last < row ->
  nth_error (removeRows m first last) (Z.to_nat row)
  = nth_error m (Z.to_nat (row + (last - first + 1))).
Proof.
  intros Hfl Hrow. unfold removeRows.
  destruct (Nat.le_gt_cases (Z.to_nat first) (length m)) as [Hle|Hgt].
  - rewrite nth_error_app2 by (rewrite length_firstn; lia).
    rewrite length_firstn, Nat.min_l by exact Hle.
    rewrite nth_error_skipn. f_equal. lia.
  - rewrite firstn_all2 by lia. rewrite skipn_all2 by lia. rewrite app_nil_r.
    transitivity (@None Row); [|symmetry]; apply nth_error_None; lia.
Qed.

(** C10.  A [rowsRemoved( first, last )] whose range does not contain the
    anchor leaves [firstVisibleRow] and [offset] as they were, whatever the
    repaint check does afterwards.  In particular, when the rows
    [first..last] lie entirely above the anchor the index is not
    renumbered: after the removal it denotes the row that stood
    [last - first + 1] places further down in the collection. *)
Theorem rowsRemoved_outside_anchor (d : ListViewPrivate) (fuel : nat) (first last : Z) :
  firstVisibleRow d < first \/ last < firstVisibleRow d ->
  let d' := fst (rowsRemoved fuel first last
                   (set_model d (removeRows (model d) first last))) in
  firstVisibleRow d' = firstVisibleRow d
  /\ offset d' = offset d
  /\ (0 <= first <= last -> last < firstVisibleRow d ->
      nth_error (model d') (Z.to_nat (firstVisibleRow d'))
      = nth_error (model d) (Z.to_nat (firstVisibleRow d + (last - first + 1)))).
Proof.
  intros Hout d'.
  destruct (rowsRemoved_outside
              (set_model d (removeRows (model d) first last)) fuel first last Hout)
    as (H1 & H2 & H3).
  fold d' in H1, H2, H3. cbn [set_model firstVisibleRow offset model] in H1, H2, H3.
  repeat split; try assumption.
  intros Hfl Habove. rewrite H1, H3. apply removeRows_above; assumption.
Qed.

Lemma rowsRemoved_outside_anchor_witness :
  let d := view5 rows4 100 2 (-10) in
  let d' := fst (rowsRemoved 4 0 0 (set_model d (removeRows (model d) 0 0))) in
  firstVisibleRow d' = 2
  /\ offset d' = -10
  /\ (0 <= 0 <= 0 -> 0 < 2 ->
      nth_error (model d') (Z.to_nat (firstVisibleRow d'))
      = nth_error (model d) (Z.to_nat (2 + (0 - 0 + 1)))).
Proof.
  apply (rowsRemoved_outside_anchor (view5 rows4 100 2 (-10)) 4 0 0).
  right. simpl. lia.
Defined.

(** ** Guards *)

Lemma scrollTo_out_of_range (d : ListViewPrivate) (fuel : nat) (row : Z)
      (hint : ScrollHint) :
  row < 0 \/ rowCount (model d) <= row ->
  scrollTo fuel row hint d = (d, Ok tt).
Proof.
  intros Hr. unfold scrollTo.
  replace ((row >=? 0) && (row <? rowCount (model d))) with false;
    [reflexivity|].
  symmetry. apply andb_false_iff.
  destruct Hr; [left; rewrite Z.geb_leb; apply Z.leb_gt|right; apply Z.ltb_ge]; lia.
Qed.

Lemma visualRect_before_anchor (d : ListViewPrivate) (fuel : nat) (row : Z) :
  row < firstVisibleRow d ->
  visualRect d fuel row = Ok QRect_null.
Proof.
  intros Hr. unfold visualRect.
  replace (row >=? firstVisibleRow d) with false; [reflexivity|].
  symmetry. rewrite Z.geb_leb. apply Z.leb_gt. lia.
Qed.

(** ** Renderer *)

Lemma extent_succ_r (m : ListModel) (width spacing : Z) :
  forall (n : nat) (row : Z),
    extent m width spacing row (S n)
    = extent m width spacing row n
      + (rowHeight m (row + Z.of_nat n) width + spacing).
Proof.
  induction n as [|n IH]; intros row.
  - cbn [extent]. change (Z.of_nat 0) with 0.
    replace (row + 0) with row by lia. lia.
  - change (extent m width spacing row (S (S n)))
      with (rowHeight m row width + spacing + extent m width spacing (row + 1) (S n)).
    rewrite IH. cbn [extent].
    replace (row + 1 + Z.of_nat n) with (row + Z.of_nat (S n)) by lia. lia.
Qed.

Lemma laidOutRow_shift (d : ListViewPrivate) (row y : Z) (k : nat) :
  laidOutRow d row y (S k)
  = laidOutRow d (row + 1)
      (y + (rowHeight (model d) row (rowWidth d) + spacing d)) k.
Proof.
  unfold laidOutRow. cbn [extent].
  replace (row + Z.of_nat (S k)) with (row + 1 + Z.of_nat k) by lia.
  f_equal. f_equal. lia.
Qed.

Lemma drawListView_while_layout (d : ListViewPrivate) :
  forall (fuel : nat) (row y : Z),
    0 <= row ->
    rowCount (model d) - row <= Z.of_nat fuel ->
    exists n : nat,
      drawListView_while d fuel (viewport_rect d) (spacing d) row y
      = Ok (map (laidOutRow d row y) (seq 0 n))
      /\ (forall k : nat, (k < n)%nat ->
            row + Z.of_nat k < rowCount (model d)
            /\ y + extent (model d) (rowWidth d) (spacing d) row k
               < sz_height (viewport d))
      /\ (rowCount (model d) <= row + Z.of_nat n
          \/ sz_height (viewport d)
             <= y + extent (model d) (rowWidth d) (spacing d) row n).
Proof.
  induction fuel as [|fuel IH]; intros row y H0 Hf.
  - exists 0%nat. cbn [drawListView_while].
    assert ((row <? rowCount (model d)) = false) as E by (apply Z.ltb_ge; lia).
    rewrite E, andb_false_r. simpl.
    split; [reflexivity|]. split; [intros k Hk; lia|]. left. lia.
  - cbn [drawListView_while].
    rewrite viewport_rect_height, viewport_rect_y, Z.add_0_l, viewport_rect_width.
    fold (rowWidth d).
    destruct (Z.ltb_spec y (sz_height (viewport d))) as [Hy|Hy];
      [destruct (Z.ltb_spec row (rowCount (model d))) as [Hr|Hr]|].
    + cbn [andb]. rewrite heightForWidth_in_range by lia. cbn [rbind].
      destruct (IH (row + 1)
                  (y + (rowHeight (model d) row (rowWidth d) + spacing d)))
        as (n & Hrun & Hall & Hstop); [lia|lia|].
      exists (S n).
      rewrite Hrun. cbn [rbind].
      split; [|split].
      * f_equal. cbn [seq map]. f_equal.
        -- unfold laidOutRow. cbn [extent]. change (Z.of_nat 0) with 0.
           rewrite !Z.add_0_r. reflexivity.
        -- rewrite <- seq_shift, map_map. apply map_ext.
           intros k. symmetry. apply laidOutRow_shift.
      * intros [|k] Hk.
        -- cbn [extent]. lia.
        -- destruct (Hall k) as [A B]; [lia|]. cbn [extent].
           split; lia.
      * cbn [extent]. destruct Hstop; [left|right]; lia.
    + cbn [andb]. exists 0%nat. simpl. split; [reflexivity|].
      split; [intros k Hk; lia|]. left. lia.
    + cbn [andb]. exists 0%nat. simpl. split; [reflexivity|].
      split; [intros k Hk; lia|]. right. lia.
Qed.

(** X1.  The renderer never asks the model for a row outside the
    collection, whatever the state: given fuel for one step per row,
    [drawListView] finishes and draws the rows [anchor, anchor + 1, ...] in
    order, row [anchor + k] in the rectangle of left edge [spacing], top
    [offset + spacing] plus the extent of the [k] rows before it, the row
    width and the row's height.  It draws a row only while that top lies
    above the bottom of the viewport and stops at the first row that does
    not, or at the end of the collection; with a negative anchor it draws
    nothing. *)
Theorem drawListView_layout (d : ListViewPrivate) (fuel : nat) :
  (length (model d) <= fuel)%nat ->
  let top := offset d + spacing d in
  exists n : nat,
    drawListView d fuel
    = Ok (map (laidOutRow d (firstVisibleRow d) top) (seq 0 n))
    /\ (forall k : nat, (k < n)%nat ->
          0 <= firstVisibleRow d + Z.of_nat k < rowCount (model d)
          /\ top + extent (model d) (rowWidth d) (spacing d) (firstVisibleRow d) k
             < sz_height (viewport d))
    /\ (firstVisibleRow d < 0 /\ n = 0%nat
        \/ rowCount (model d) <= firstVisibleRow d + Z.of_nat n
        \/ sz_height (viewport d)
           <= top + extent (model d) (rowWidth d) (spacing d) (firstVisibleRow d) n).
Proof.
  intros Hf top. unfold drawListView.
  destruct (Z.geb_spec (firstVisibleRow d) 0) as [H0|H0].
  - destruct (drawListView_while_layout d fuel (firstVisibleRow d) top)
      as (n & Hrun & Hall & Hstop); [lia|unfold rowCount; lia|].
    exists n. split; [exact Hrun|]. split.
    + intros k Hk. destruct (Hall k Hk). split; lia.
    + right. exact Hstop.
  - exists 0%nat. split; [reflexivity|]. split; [intros k Hk; lia|].
    left. split; [lia|reflexivity].
Qed.

Lemma drawListView_layout_witness :
  let d := view5 rows3 100 0 0 in
  let top := offset d + spacing d in
  exists n : nat,
    drawListView d 3
    = Ok (map (laidOutRow d (firstVisibleRow d) top) (seq 0 n))
    /\ (forall k : nat, (k < n)%nat ->
          0 <= firstVisibleRow d + Z.of_nat k < rowCount (model d)
          /\ top + extent (model d) (rowWidth d) (spacing d) (firstVisibleRow d) k
             < sz_height (viewport d))
    /\ (firstVisibleRow d < 0 /\ n = 0%nat
        \/ rowCount (model d) <= firstVisibleRow d + Z.of_nat n
        \/ sz_height (viewport d)
           <= top + extent (model d) (rowWidth d) (spacing d) (firstVisibleRow d) n).
Proof.
  apply (drawListView_layout (view5 rows3 100 0 0) 3). simpl. lia.
Defined.

(** ** Closed forms of the probes *)

Lemma heightForWidth_Ok (m : ListModel) (row width h : Z) :
  heightForWidth m row width = Ok h ->
  h = rowHeight m row width /\ 0 <= row < rowCount m.
Proof.
  intros H. split.
  - unfold rowHeight. rewrite H. reflexivity.
  - destruct (Z_lt_ge_dec row 0) as [L|L];
      [rewrite heightForWidth_out_of_range in H by lia; discriminate|].
    destruct (Z_lt_ge_dec row (rowCount m)) as [U|U]; [lia|].
    rewrite heightForWidth_out_of_range in H by lia. discriminate.
Qed.

Lemma visualRect_while_closed (d : ListViewPrivate) :
  heightsNonNegative d -> 0 <= spacing d ->
  forall (n fuel : nat) (tmpRow y : Z),
    0 <= tmpRow ->
    tmpRow + Z.of_nat n < rowCount (model d) ->
    (n <= fuel)%nat ->
    visualRect_while d fuel (viewport_rect d) (spacing d) (rowWidth d)
      (tmpRow + Z.of_nat n) tmpRow y (rowHeight (model d) tmpRow (rowWidth d))
    = Ok (if (0 <? Z.of_nat n)
             && (y + extent (model d) (rowWidth d) (spacing d) tmpRow n
                 >? sz_height (viewport d))
          then QRect_null
          else rect_intersected (viewport_rect d)
                 (QRect_xywh (spacing d)
                    (y + extent (model d) (rowWidth d) (spacing d) tmpRow n)
                    (rowWidth d)
                    (rowHeight (model d) (tmpRow + Z.of_nat n) (rowWidth d)))).
Proof.
  intros Hh Hs. induction n as [|n IH]; intros fuel tmpRow y H0 Hn Hf.
  - change (Z.of_nat 0) with 0. rewrite Z.add_0_r. cbn [extent].
    rewrite Z.add_0_r. cbn [andb Z.ltb Z.compare].
    destruct fuel; cbn [visualRect_while]; rewrite Z.ltb_irrefl; reflexivity.
  - destruct fuel as [|fuel]; [lia|].
    pose proof (extent_nonneg d Hh Hs n (tmpRow + 1)) as Hext.
    pose proof (rowHeight_nonneg d tmpRow Hh) as Hrow.
    replace (tmpRow + Z.of_nat (S n)) with (tmpRow + 1 + Z.of_nat n) by lia.
    cbn [visualRect_while extent].
    assert ((tmpRow <? tmpRow + 1 + Z.of_nat n) = true) as E
        by (apply Z.ltb_lt; lia).
    rewrite E. rewrite viewport_rect_height.
    assert ((0 <? Z.of_nat (S n)) = true) as E0 by (apply Z.ltb_lt; lia).
    rewrite E0. cbn [andb].
    destruct (Z.gtb_spec
                (y + (rowHeight (model d) tmpRow (rowWidth d) + spacing d))
                (sz_height (viewport d))) as [Hgt|Hle].
    + destruct (Z.gtb_spec
                  (y + (rowHeight (model d) tmpRow (rowWidth d) + spacing d
                        + extent (model d) (rowWidth d) (spacing d) (tmpRow + 1) n))
                  (sz_height (viewport d))); [reflexivity|lia].
    + rewrite heightForWidth_in_range by lia. cbn [rbind].
      rewrite IH by lia.
      replace (y + (rowHeight (model d) tmpRow (rowWidth d) + spacing d)
               + extent (model d) (rowWidth d) (spacing d) (tmpRow + 1) n)
        with (y + (rowHeight (model d) tmpRow (rowWidth d) + spacing d
                   + extent (model d) (rowWidth d) (spacing d) (tmpRow + 1) n))
        by lia.
      destruct n as [|n'].
      * cbn [extent andb Z.of_nat Z.ltb Z.compare].
        rewrite Z.add_0_r.
        destruct (Z.gtb_spec
                    (y + (rowHeight (model d) tmpRow (rowWidth d) + spacing d))
                    (sz_height (viewport d))); [lia|reflexivity].
      * assert ((0 <? Z.of_nat (S n')) = true) as E1 by (apply Z.ltb_lt; lia).
        rewrite E1. reflexivity.
Qed.

Lemma visualRect_closed_form_lemma (d : ListViewPrivate) (fuel : nat) (row : Z) :
  heightsNonNegative d ->
  0 <= spacing d ->
  0 <= firstVisibleRow d <= row ->
  row < rowCount (model d) ->
  (length (model d) <= fuel)%nat ->
  visualRect d fuel row
  = Ok (if (firstVisibleRow d <? row)
           && (offset d
               + extent (model d) (rowWidth d) (spacing d) (firstVisibleRow d)
                   (Z.to_nat (row - firstVisibleRow d))
               >? sz_height (viewport d))
        then QRect_null
        else rect_intersected (viewport_rect d)
               (QRect_xywh (spacing d)
                  (offset d
                   + extent (model d) (rowWidth d) (spacing d) (firstVisibleRow d)
                       (Z.to_nat (row - firstVisibleRow d)))
                  (rowWidth d)
                  (rowHeight (model d) row (rowWidth d)))).
Proof.
  intros Hh Hs Ha Hr Hf. unfold visualRect.
  destruct (Z.geb_spec row (firstVisibleRow d)) as [_|]; [|lia].
  rewrite viewport_rect_width. fold (rowWidth d).
  rewrite heightForWidth_in_range by lia. cbn [rbind].
  set (n := Z.to_nat (row - firstVisibleRow d)) in *.
  assert (firstVisibleRow d + Z.of_nat n = row) as Hn by lia.
  pose proof (visualRect_while_closed d Hh Hs n fuel (firstVisibleRow d)
                (offset d)) as Hw.
  rewrite Hn in Hw. unfold rowCount in *.
  change (rect_x (viewport_rect d) + spacing d) with (spacing d).
  change (rect_y (viewport_rect d) + offset d) with (offset d).
  rewrite Hw by lia.
  replace (0 <? Z.of_nat n) with (firstVisibleRow d <? row); [reflexivity|].
  destruct (Z.ltb_spec (firstVisibleRow d) row);
    destruct (Z.ltb_spec 0 (Z.of_nat n)); try reflexivity; lia.
Qed.

(** X2.  For a row at or after a valid anchor, with non-negative heights
    and spacing, [visualRect] asks only for rows of the collection and
    returns the row's rectangle clipped to the viewport: left edge
    [spacing], top [offset] plus the extent of the rows between the anchor
    and the row, the row width and the row's height.  It returns the null
    rectangle instead when the row is after the anchor and that top lies
    below the height of the viewport. *)
Theorem visualRect_closed_form (d : ListViewPrivate) (fuel : nat) (row : Z) :
  heightsNonNegative d ->
  0 <= spacing d ->
  0 <= firstVisibleRow d <= row ->
  row < rowCount (model d) ->
  (length (model d) <= fuel)%nat ->
  let top := offset d
             + extent (model d) (rowWidth d) (spacing d) (firstVisibleRow d)
                 (Z.to_nat (row - firstVisibleRow d)) in
  visualRect d fuel row
  = Ok (if (firstVisibleRow d <? row) && (top >? sz_height (viewport d))
        then QRect_null
        else rect_intersected (viewport_rect d)
               (QRect_xywh (spacing d) top (rowWidth d)
                  (rowHeight (model d) row (rowWidth d)))).
Proof.
  intros Hh Hs Ha Hr Hf top.
  exact (visualRect_closed_form_lemma d fuel row Hh Hs Ha Hr Hf).
Qed.

Lemma visualRect_closed_form_witness :
  let d := view5 rows3 100 0 (-30) in
  let top := offset d
             + extent (model d) (rowWidth d) (spacing d) (firstVisibleRow d)
                 (Z.to_nat (1 - firstVisibleRow d)) in
  visualRect d 3 1
  = Ok (if (firstVisibleRow d <? 1) && (top >? sz_height (viewport d))
        then QRect_null
        else rect_intersected (viewport_rect d)
               (QRect_xywh (spacing d) top (rowWidth d)
                  (rowHeight (model d) 1 (rowWidth d)))).
Proof.
  apply (visualRect_closed_form (view5 rows3 100 0 (-30)) 3 1).
  - repeat constructor; simpl; lia.
  - simpl; lia.
  - simpl; lia.
  - vm_compute; reflexivity.
  - simpl; lia.
Defined.

Lemma canScrollDown_while_result (d : ListViewPrivate) :
  forall (fuel : nat) (row y : Z) (v : Z * Z),
    canScrollDown_while d fuel (viewport_rect d) (rowWidth d) row y = Ok v ->
    exists n : nat,
      fst v = row + Z.of_nat n
      /\ snd v = y + extent (model d) (rowWidth d) (spacing d) row n
      /\ (fst v < rowCount (model d) -> sz_height (viewport d) <= snd v).
Proof.
  induction fuel as [|fuel IH]; intros row y v H; cbn [canScrollDown_while] in H;
    rewrite viewport_rect_height, viewport_rect_y, Z.add_0_l in H;
    destruct (Z.ltb_spec y (sz_height (viewport d))) as [Hy|Hy];
    destruct (Z.ltb_spec row (rowCount (model d))) as [Hr|Hr];
    cbn [andb] in H; try discriminate;
    try (injection H as <-; exists 0%nat; cbn [fst snd extent];
         repeat split; lia).
  destruct (heightForWidth (model d) row (rowWidth d)) as [h|] eqn:Eh;
    [|discriminate].
  apply heightForWidth_Ok in Eh. destruct Eh as [-> _]. cbn [rbind] in H.
  destruct (IH _ _ _ H) as (n & H1 & H2 & H3).
  exists (S n). cbn [extent]. repeat split; lia.
Qed.

(** X3.  For a row index that is not negative, [canScrollDown] finishes
    and answers yes exactly when, with that row laid out one [spacing]
    below the window top, some row of the collection at or after it starts
    at or below the bottom edge of the window. *)
Theorem canScrollDown_iff_rowsBeyondWindow (d : ListViewPrivate) (fuel : nat)
        (row : Z) :
  0 <= row ->
  (length (model d) <= fuel)%nat ->
  exists b : bool,
    canScrollDown d fuel row = Ok b
    /\ (b = true <-> rowsBeyondWindow d row).
Proof.
  intros H0 Hf.
  destruct (canScrollDown_terminates d fuel row) as [b Hb]; [lia|exact Hf|].
  exists b. split; [exact Hb|]. split.
  - intros ->. unfold canScrollDown in Hb.
    destruct (Z.eqb_spec row (-1)) as [|_]; [lia|].
    rewrite viewport_rect_width in Hb. fold (rowWidth d) in Hb.
    destruct (canScrollDown_while d fuel _ _ row _) as [v|] eqn:Ev;
      [|discriminate].
    cbn [rbind] in Hb.
    destruct (canScrollDown_while_result d fuel row _ v Ev) as (k & H1 & H2 & H3).
    destruct (Z.ltb_spec (fst v) (rowCount (model d))) as [Hlt|]; [|discriminate].
    exists k. split; [lia|]. specialize (H3 Hlt).
    rewrite viewport_rect_y, Z.add_0_l in H2. lia.
  - intros Hbeyond.
    rewrite (canScrollDown_beyond d fuel row H0 Hbeyond Hf) in Hb.
    congruence.
Qed.

Lemma canScrollDown_iff_rowsBeyondWindow_witness :
  exists b : bool,
    canScrollDown (view5 rows3 100 0 0) 3 1 = Ok b
    /\ (b = true <-> rowsBeyondWindow (view5 rows3 100 0 0) 1).
Proof.
  apply (canScrollDown_iff_rowsBeyondWindow (view5 rows3 100 0 0) 3 1).
  - lia.
  - simpl; lia.
Defined.

Lemma maxOffset_while_result (d : ListViewPrivate) :
  forall (fuel : nat) (row y : Z) (v : Z * Z),
    -1 <= row ->
    maxOffset_while d fuel (viewport_rect d) (rowWidth d) row y = Ok v ->
    exists n : nat,
      fst v = row - Z.of_nat n
      /\ -1 <= fst v
      /\ snd v = y + extent (model d) (rowWidth d) (spacing d) (fst v + 1) n
      /\ (0 <= fst v -> sz_height (viewport d) <= snd v)
      /\ ((0 < n)%nat ->
          snd v - (rowHeight (model d) (fst v + 1) (rowWidth d) + spacing d)
          < sz_height (viewport d)).
Proof.
  induction fuel as [|fuel IH]; intros row y v Hrow H; cbn [maxOffset_while] in H;
    rewrite viewport_rect_height in H;
    destruct (Z.ltb_spec y (sz_height (viewport d))) as [Hy|Hy];
    destruct (Z.geb_spec row 0) as [Hr|Hr];
    cbn [andb] in H; try discriminate;
    try (injection H as <-; exists 0%nat; cbn [fst snd extent];
         repeat split; lia).
  destruct (heightForWidth (model d) row (rowWidth d)) as [h|] eqn:Eh;
    [|discriminate].
  apply heightForWidth_Ok in Eh. destruct Eh as [-> _]. cbn [rbind] in H.
  assert (-1 <= row - 1) as Hrow1 by lia.
  destruct (IH _ _ _ Hrow1 H) as (n & H1 & H2 & H3 & H4 & H5).
  exists (S n). rewrite extent_succ_r.
  replace (fst v + 1 + Z.of_nat n) with row by lia.
  repeat split; try lia.
  intros _. destruct n as [|n].
  - cbn [extent] in H3. replace (fst v + 1) with row by lia. lia.
  - apply H5. lia.
Qed.

(** X4.  [maxOffset] finishes and is decided by the shortest run of rows
    at the end of the collection whose extent (each height plus one
    [spacing]) reaches the height of the viewport, or by all rows when no
    run does.  Where that extent [y] exceeds the height the result is
    [height - y - 1], so that an anchor at the first row of the run with
    this offset puts the end of the last row's extent at [height - 1];
    otherwise the result is [0].  The result is never positive. *)
Theorem maxOffset_characterised (d : ListViewPrivate) (fuel : nat) :
  (length (model d) <= fuel)%nat ->
  exists k : Z,
    0 <= k <= rowCount (model d)
    /\ let y := extent (model d) (rowWidth d) (spacing d) k
                  (Z.to_nat (rowCount (model d) - k)) in
       maxOffset d fuel
       = Ok (if y >? sz_height (viewport d)
             then sz_height (viewport d) - y - 1 else 0)
       /\ (0 < k -> sz_height (viewport d) <= y)
       /\ (k < rowCount (model d) ->
           y - (rowHeight (model d) k (rowWidth d) + spacing d)
           < sz_height (viewport d))
       /\ (if y >? sz_height (viewport d)
           then sz_height (viewport d) - y - 1 else 0) <= 0.
Proof.
  intros Hf.
  destruct (maxOffset_while_terminates d (viewport_rect d) (rowWidth d) fuel
              (rowCount (model d) - 1) 0) as [v Hv];
    [lia|unfold rowCount; lia|].
  pose proof (rowCount_nonneg (model d)) as Hc.
  assert (-1 <= rowCount (model d) - 1) as Hlast by lia.
  destruct (maxOffset_while_result d fuel _ _ v Hlast Hv)
    as (n & H1 & H2 & H3 & H4 & H5).
  exists (fst v + 1). split; [lia|]. cbv zeta.
  replace (Z.to_nat (rowCount (model d) - (fst v + 1))) with n by lia.
  rewrite Z.add_0_l in H3. rewrite <- H3.
  unfold maxOffset. rewrite viewport_rect_width. fold (rowWidth d).
  rewrite Hv. cbn [rbind]. rewrite viewport_rect_height.
  split; [destruct (snd v >? sz_height (viewport d)); reflexivity|].
  split; [|split].
  - intros Hk. apply H4. lia.
  - intros Hk. apply H5. lia.
  - destruct (Z.gtb_spec (snd v) (sz_height (viewport d))); lia.
Qed.

Lemma maxOffset_characterised_witness :
  let d := view5 rows3 100 0 0 in
  exists k : Z,
    0 <= k <= rowCount (model d)
    /\ let y := extent (model d) (rowWidth d) (spacing d) k
                  (Z.to_nat (rowCount (model d) - k)) in
       maxOffset d 3
       = Ok (if y >? sz_height (viewport d)
             then sz_height (viewport d) - y - 1 else 0)
       /\ (0 < k -> sz_height (viewport d) <= y)
       /\ (k < rowCount (model d) ->
           y - (rowHeight (model d) k (rowWidth d) + spacing d)
           < sz_height (viewport d))
       /\ (if y >? sz_height (viewport d)
           then sz_height (viewport d) - y - 1 else 0) <= 0.
Proof.
  apply (maxOffset_characterised (view5 rows3 100 0 0) 3). simpl. lia.
Defined.

Lemma extent_app (m : ListModel) (width spacing : Z) :
  forall (n k : nat) (row : Z),
    extent m width spacing row (n + k)
    = extent m width spacing row n
      + extent m width spacing (row + Z.of_nat n) k.
Proof.
  induction n as [|n IH]; intros k row.
  - cbn [extent Nat.add]. change (Z.of_nat 0) with 0.
    replace (row + 0) with row by lia. lia.
  - cbn [extent Nat.add]. rewrite IH.
    replace (row + 1 + Z.of_nat n) with (row + Z.of_nat (S n)) by lia. lia.
Qed.

Lemma extent_suffix (width spacing : Z) :
  forall (rest done : list Row),
    extent (done ++ rest) width spacing (Z.of_nat (length done)) (length rest)
    = sumRows rest width spacing.
Proof.
  induction rest as [|r rest IH]; intros done.
  - reflexivity.
  - cbn [length extent].
    replace (Z.of_nat (length done) + 1) with (Z.of_nat (length (done ++ [r])))
      by (rewrite length_app; simpl; lia).
    replace (done ++ r :: rest) with ((done ++ [r]) ++ rest)
      by (rewrite <- app_assoc; reflexivity).
    rewrite IH.
    unfold rowHeight, heightForWidth.
    destruct (Z.ltb_spec (Z.of_nat (length (done ++ [r]) - 1)) 0); [lia|].
    replace (Z.of_nat (length done)) with (Z.of_nat (length (done ++ [r]) - 1))
      by (rewrite length_app; simpl; lia).
    destruct (Z.ltb_spec (Z.of_nat (length (done ++ [r]) - 1)) 0); [lia|].
    rewrite Nat2Z.id, <- app_assoc.
    replace (length (done ++ [r]) - 1)%nat with (length done)
      by (rewrite length_app; simpl; lia).
    rewrite nth_error_app2 by lia. rewrite Nat.sub_diag. cbn.
    unfold sumRows. cbn. lia.
Qed.

Lemma extent_all (m : ListModel) (width spacing : Z) :
  extent m width spacing 0 (length m) = sumRows m width spacing.
Proof. exact (extent_suffix width spacing m []). Qed.

(** X5.  Where the rows have non-negative heights and the extent of the
    whole collection, the sum over the rows of height plus [spacing], does
    not exceed the height of the viewport, [maxOffset] is [0]: no negative
    offset is admitted for content that fits the window. *)
Theorem maxOffset_zero_when_content_fits (d : ListViewPrivate) (fuel : nat) :
  heightsNonNegative d ->
  0 <= spacing d ->
  sumRows (model d) (rowWidth d) (spacing d) <= sz_height (viewport d) ->
  (length (model d) <= fuel)%nat ->
  maxOffset d fuel = Ok 0.
Proof.
  intros Hh Hs Hfit Hf.
  destruct (maxOffset_while_terminates d (viewport_rect d) (rowWidth d) fuel
              (rowCount (model d) - 1) 0) as [v Hv];
    [lia|unfold rowCount; lia|].
  pose proof (rowCount_nonneg (model d)) as Hc.
  assert (-1 <= rowCount (model d) - 1) as Hlast by lia.
  destruct (maxOffset_while_result d fuel _ _ v Hlast Hv)
    as (n & H1 & H2 & H3 & _ & _).
  unfold maxOffset. rewrite viewport_rect_width. fold (rowWidth d).
  rewrite Hv. cbn [rbind]. rewrite viewport_rect_height.
  assert (snd v <= sumRows (model d) (rowWidth d) (spacing d)) as Hle.
  { rewrite <- extent_all.
    replace (length (model d)) with (Z.to_nat (fst v + 1) + n)%nat
      by (unfold rowCount in *; lia).
    rewrite extent_app.
    pose proof (extent_nonneg d Hh Hs (Z.to_nat (fst v + 1)) 0).
    replace (0 + Z.of_nat (Z.to_nat (fst v + 1))) with (fst v + 1) by lia.
    lia. }
  destruct (Z.gtb_spec (snd v) (sz_height (viewport d))); [lia|reflexivity].
Qed.

Lemma maxOffset_zero_when_content_fits_witness :
  maxOffset (view5 rows3 1000 0 0) 3 = Ok 0.
Proof.
  apply (maxOffset_zero_when_content_fits (view5 rows3 1000 0 0) 3).
  - repeat constructor; simpl; lia.
  - simpl; lia.
  - vm_compute; discriminate.
  - simpl; lia.
Defined.

(** ** The scroll planner *)

Lemma calculateScroll_up_extent (d : ListViewPrivate) (width : Z) :
  forall (n fuel : nat) (row delta : Z),
    0 <= row ->
    row + Z.of_nat n <= rowCount (model d) ->
    (n <= fuel)%nat ->
    calculateScroll_up d fuel width row (row + Z.of_nat n - 1) delta
    = Ok (delta + extent (model d) width (spacing d) row n).
Proof.
  induction n as [|n IH]; intros fuel row delta H0 Hn Hf.
  - change (Z.of_nat 0) with 0. cbn [extent].
    destruct fuel; cbn [calculateScroll_up];
      (destruct (Z.geb_spec (row + 0 - 1) row); [lia|f_equal; lia]).
  - destruct fuel as [|fuel]; [lia|]. cbn [calculateScroll_up].
    destruct (Z.geb_spec (row + Z.of_nat (S n) - 1) row); [|lia].
    rewrite heightForWidth_in_range by lia. cbn [rbind].
    replace (row + Z.of_nat (S n) - 1 - 1) with (row + Z.of_nat n - 1) by lia.
    rewrite IH by lia. rewrite extent_succ_r.
    replace (row + Z.of_nat (S n) - 1) with (row + Z.of_nat n) by lia.
    f_equal. lia.
Qed.

Lemma calculateScroll_backward (d : ListViewPrivate) (fuel : nat)
      (row expected : Z) :
  0 <= row < firstVisibleRow d ->
  firstVisibleRow d <= rowCount (model d) ->
  (length (model d) <= fuel)%nat ->
  calculateScroll d fuel row expected
  = Ok (- offset d + expected
        + extent (model d) (rowWidth d) (spacing d) row
            (Z.to_nat (firstVisibleRow d - row))).
Proof.
  intros Hr Ha Hf. unfold calculateScroll. fold (rowWidth d).
  destruct (Z.gtb_spec (firstVisibleRow d) row); [|lia].
  replace (firstVisibleRow d - 1)
    with (row + Z.of_nat (Z.to_nat (firstVisibleRow d - row)) - 1) by lia.
  apply calculateScroll_up_extent; unfold rowCount in *; lia.
Qed.

(** X6.  For a target row and an anchor that are rows of the collection,
    [calculateScroll] finishes and returns the expected offset minus the
    current offset, minus the extent of the rows from the anchor up to the
    target when the target lies after the anchor, plus the extent of the
    rows from the target up to the anchor when it lies before. *)
Theorem calculateScroll_closed_form (d : ListViewPrivate) (fuel : nat)
        (row expected : Z) :
  0 <= row < rowCount (model d) ->
  0 <= firstVisibleRow d < rowCount (model d) ->
  (length (model d) <= fuel)%nat ->
  calculateScroll d fuel row expected
  = Ok (expected - offset d
        + (if row <? firstVisibleRow d
           then extent (model d) (rowWidth d) (spacing d) row
                  (Z.to_nat (firstVisibleRow d - row))
           else - extent (model d) (rowWidth d) (spacing d) (firstVisibleRow d)
                    (Z.to_nat (row - firstVisibleRow d)))).
Proof.
  intros Hr Ha Hf. destruct (Z.ltb_spec row (firstVisibleRow d)).
  - rewrite calculateScroll_backward by lia. f_equal. lia.
  - rewrite calculateScroll_forward by lia. f_equal. lia.
Qed.

Lemma calculateScroll_closed_form_witness :
  let d := view5 rows3 100 2 (-7) in
  calculateScroll d 3 0 (-1)
  = Ok (-1 - offset d
        + (if 0 <? firstVisibleRow d
           then extent (model d) (rowWidth d) (spacing d) 0
                  (Z.to_nat (firstVisibleRow d - 0))
           else - extent (model d) (rowWidth d) (spacing d) (firstVisibleRow d)
                    (Z.to_nat (0 - firstVisibleRow d)))).
Proof.
  apply (calculateScroll_closed_form (view5 rows3 100 2 (-7)) 3 0 (-1)).
  - vm_compute. split; [discriminate|reflexivity].
  - vm_compute. split; [discriminate|reflexivity].
  - simpl; lia.
Defined.

(** X7.  Planning there and back cancels.  From the anchor [a] at offset
    [o], the delta planned to bring row [r] to offset [o'], and from the
    anchor [r] at offset [o'] the delta planned to bring row [a] back to
    offset [o], add up to [0]: the planner counts the same rows in both
    directions. *)
Theorem calculateScroll_round_trip (d : ListViewPrivate) (fuel : nat)
        (r o' : Z) :
  0 <= r < rowCount (model d) ->
  0 <= firstVisibleRow d < rowCount (model d) ->
  (length (model d) <= fuel)%nat ->
  exists there back : Z,
    calculateScroll d fuel r o' = Ok there
    /\ calculateScroll (set_offset (set_firstVisibleRow d r) o') fuel
         (firstVisibleRow d) (offset d) = Ok back
    /\ there + back = 0.
Proof.
  intros Hr Ha Hf.
  destruct (Z.lt_trichotomy r (firstVisibleRow d)) as [Hlt|[Heq|Hgt]].
  - eexists. eexists.
    rewrite calculateScroll_backward by lia.
    rewrite calculateScroll_forward by (cbn; lia).
    split; [reflexivity|]. split; [reflexivity|]. cbn. unfold rowWidth. cbn. lia.
  - eexists. eexists.
    rewrite !calculateScroll_forward by (cbn; lia).
    split; [reflexivity|]. split; [reflexivity|]. cbn.
    rewrite Heq, Z.sub_diag. cbn. lia.
  - eexists. eexists.
    rewrite calculateScroll_forward by lia.
    rewrite calculateScroll_backward by (cbn; lia).
    split; [reflexivity|]. split; [reflexivity|]. cbn. unfold rowWidth. cbn. lia.
Qed.

Lemma calculateScroll_round_trip_witness :
  let d := view5 rows3 100 0 (-7) in
  exists there back : Z,
    calculateScroll d 3 2 (-1) = Ok there
    /\ calculateScroll (set_offset (set_firstVisibleRow d 2) (-1)) 3
         (firstVisibleRow d) (offset d) = Ok back
    /\ there + back = 0.
Proof.
  apply (calculateScroll_round_trip (view5 rows3 100 0 (-7)) 3 2 (-1)).
  - vm_compute. split; [discriminate|reflexivity].
  - vm_compute. split; [discriminate|reflexivity].
  - simpl; lia.
Defined.

(** ** The walks of the offset normaliser *)

Lemma normalizeOffset_down_result (d : ListViewPrivate) :
  forall (fuel : nat) (row off : Z),
    0 <= row < rowCount (model d) ->
    rowCount (model d) - row <= Z.of_nat fuel ->
    exists (n : nat) (off' : Z),
      normalizeOffset_down d fuel (rowWidth d) row off
        (rowHeight (model d) row (rowWidth d))
      = Ok (row + Z.of_nat n, off')
      /\ row + Z.of_nat n < rowCount (model d)
      /\ (forall k : nat, (k < n)%nat ->
            Z.abs (off + extent (model d) (rowWidth d) (spacing d) row k)
            > rowHeight (model d) (row + Z.of_nat k) (rowWidth d) + spacing d)
      /\ (off' = off + extent (model d) (rowWidth d) (spacing d) row n
          /\ Z.abs off'
             <= rowHeight (model d) (row + Z.of_nat n) (rowWidth d) + spacing d
          \/ row + Z.of_nat n = rowCount (model d) - 1
             /\ off' = 0
             /\ Z.abs (off + extent (model d) (rowWidth d) (spacing d) row n)
                > rowHeight (model d) (row + Z.of_nat n) (rowWidth d) + spacing d)
      /\ (off <= 0 -> off' <= 0).
Proof.
  induction fuel as [|fuel IH]; intros row off Hrow Hf; [lia|].
  cbn [normalizeOffset_down].
  destruct (Z.gtb_spec (Z.abs off)
              (rowHeight (model d) row (rowWidth d) + spacing d)) as [Hgt|Hle].
  - destruct (Z.ltb_spec row (rowCount (model d) - 1)) as [Hlt|Hge].
    + rewrite heightForWidth_in_range by lia. cbn [rbind].
      destruct (IH (row + 1)
                  (off + (rowHeight (model d) row (rowWidth d) + spacing d)))
        as (n & off' & Hrun & Hin & Hall & Hend & Hneg); [lia|lia|].
      exists (S n), off'.
      replace (row + Z.of_nat (S n)) with (row + 1 + Z.of_nat n) by lia.
      split; [exact Hrun|]. split; [exact Hin|]. split; [|split].
      * intros [|k] Hk.
        -- cbn [extent]. change (Z.of_nat 0) with 0.
           replace (row + 0) with row by lia.
           replace (off + 0) with off by lia. lia.
        -- cbn [extent].
           replace (row + Z.of_nat (S k)) with (row + 1 + Z.of_nat k) by lia.
           specialize (Hall k ltac:(lia)).
           replace (off + (rowHeight (model d) row (rowWidth d) + spacing d
                           + extent (model d) (rowWidth d) (spacing d) (row + 1) k))
             with (off + (rowHeight (model d) row (rowWidth d) + spacing d)
                   + extent (model d) (rowWidth d) (spacing d) (row + 1) k)
             by lia.
           exact Hall.
      * cbn [extent].
        replace (off + (rowHeight (model d) row (rowWidth d) + spacing d
                        + extent (model d) (rowWidth d) (spacing d) (row + 1) n))
          with (off + (rowHeight (model d) row (rowWidth d) + spacing d)
                + extent (model d) (rowWidth d) (spacing d) (row + 1) n)
          by lia.
        exact Hend.
      * intros Hoff. apply Hneg. lia.
    + exists 0%nat, 0. change (Z.of_nat 0) with 0. cbn [extent].
      replace (row + 0) with row by lia. replace (off + 0) with off by lia.
      split; [reflexivity|]. split; [lia|]. split; [intros k Hk; lia|].
      split; [right; repeat split; lia|lia].
  - exists 0%nat, off. change (Z.of_nat 0) with 0. cbn [extent].
    replace (row + 0) with row by lia. replace (off + 0) with off by lia.
    split; [reflexivity|]. split; [lia|]. split; [intros k Hk; lia|].
    split; [left; split; lia|lia].
Qed.

Lemma normalizeOffset_up_result (d : ListViewPrivate) :
  forall (fuel : nat) (row off : Z),
    0 <= row < rowCount (model d) ->
    row + 1 <= Z.of_nat fuel ->
    exists (n : nat) (off' : Z),
      normalizeOffset_up d fuel (rowWidth d) row off
      = Ok (row - Z.of_nat n, off')
      /\ 0 <= row - Z.of_nat n
      /\ (forall k : nat, (k < n)%nat ->
            off - extent (model d) (rowWidth d) (spacing d)
                    (row - Z.of_nat k + 1) k > 0)
      /\ (off' = off - extent (model d) (rowWidth d) (spacing d)
                         (row - Z.of_nat n + 1) n
          /\ off' <= 0
          \/ row - Z.of_nat n = 0
             /\ off' = 0
             /\ off - extent (model d) (rowWidth d) (spacing d)
                        (row - Z.of_nat n + 1) n > 0).
Proof.
  induction fuel as [|fuel IH]; intros row off Hrow Hf; [lia|].
  cbn [normalizeOffset_up].
  destruct (Z.gtb_spec off 0) as [Hgt|Hle].
  - rewrite heightForWidth_in_range by lia. cbn [rbind].
    destruct (Z.eqb_spec row 0) as [E0|E0]; cbn [negb].
    + exists 0%nat, 0. change (Z.of_nat 0) with 0. cbn [extent].
      replace (row - 0) with row by lia.
      split; [reflexivity|]. split; [lia|]. split; [intros k Hk; lia|].
      right. repeat split; lia.
    + destruct (IH (row - 1)
                  (off - (rowHeight (model d) row (rowWidth d) + spacing d)))
        as (n & off' & Hrun & Hin & Hall & Hend); [lia|lia|].
      assert (forall k : nat,
                 off - extent (model d) (rowWidth d) (spacing d)
                         (row - Z.of_nat (S k) + 1) (S k)
                 = off - (rowHeight (model d) row (rowWidth d) + spacing d)
                   - extent (model d) (rowWidth d) (spacing d)
                       (row - 1 - Z.of_nat k + 1) k) as Hshift.
      { intros k. rewrite extent_succ_r.
        replace (row - Z.of_nat (S k) + 1 + Z.of_nat k) with row by lia.
        replace (row - Z.of_nat (S k) + 1) with (row - 1 - Z.of_nat k + 1) by lia.
        lia. }
      exists (S n), off'.
      replace (row - Z.of_nat (S n)) with (row - 1 - Z.of_nat n) by lia.
      split; [exact Hrun|]. split; [exact Hin|]. split.
      * intros [|k] Hk.
        -- cbn [extent]. lia.
        -- rewrite Hshift. apply Hall. lia.
      * replace (row - 1 - Z.of_nat n + 1) with (row - Z.of_nat (S n) + 1) by lia.
        rewrite Hshift. exact Hend.
  - exists 0%nat, off. change (Z.of_nat 0) with 0. cbn [extent].
    replace (row - 0) with row by lia.
    split; [reflexivity|]. split; [lia|]. split; [intros k Hk; lia|].
    left. split; lia.
Qed.

Lemma maxOffset_nonpos (d : ListViewPrivate) (fuel : nat) (max : Z) :
  maxOffset d fuel = Ok max -> max <= 0.
Proof.
  unfold maxOffset.
  destruct (maxOffset_while d fuel _ _ _ _) as [v|]; [|discriminate].
  cbn [rbind].
  destruct (Z.gtb_spec (snd v) (rect_height (viewport_rect d))) as [Hgt|Hle];
    intros Hmax; injection Hmax as <-; lia.
Qed.

Lemma scrollContentsBy_unfold (fuel : nat) (dx dy : Z) (d : ListViewPrivate) :
  scrollContentsBy fuel dx dy d
  = match normalizeOffset (set_offset d (offset d + dy)) fuel
            (firstVisibleRow d) (offset d + dy) with
    | Ok ro =>
        (set_offset
           (set_firstVisibleRow (set_offset d (offset d + dy)) (fst ro))
           (snd ro), Ok tt)
    | Fault f => (set_offset d (offset d + dy), Fault f)
    end.
Proof.
  unfold scrollContentsBy, vbind, vmodify, vread.
  cbn [firstVisibleRow offset set_offset].
  destruct (normalizeOffset _ fuel (firstVisibleRow d) (offset d + dy));
    reflexivity.
Qed.

Lemma normalizeOffset_valid (d : ListViewPrivate) (fuel : nat) (row off : Z) :
  0 <= row < rowCount (model d) ->
  (length (model d) <= fuel)%nat ->
  exists row' off' : Z,
    normalizeOffset d fuel row off = Ok (row', off')
    /\ 0 <= row' < rowCount (model d)
    /\ off' <= 0.
Proof.
  intros Hrow Hf. unfold normalizeOffset.
  rewrite viewport_rect_width. fold (rowWidth d).
  destruct (Z.gtb_spec off 0) as [Hpos|Hnpos].
  - destruct (Z.gtb_spec row 0) as [Hr|Hr].
    + destruct (normalizeOffset_up_result d fuel row off)
        as (n & off' & Hrun & Hin & _ & Hend);
        [lia|unfold rowCount in *; lia|].
      exists (row - Z.of_nat n), off'. split; [exact Hrun|].
      split; [lia|]. destruct Hend as [[_ H]|[_ [H _]]]; lia.
    + exists row, 0. split; [reflexivity|]. split; lia.
  - destruct (Z.ltb_spec off 0) as [Hneg|Hzero].
    + destruct (canScrollDown_terminates d fuel row) as [b Hb]; [lia|exact Hf|].
      rewrite Hb. cbn [rbind]. destruct b.
      * rewrite heightForWidth_in_range by lia. cbn [rbind].
        destruct (normalizeOffset_down_result d fuel row off)
          as (n & off' & Hrun & Hin & _ & _ & Hle);
          [lia|unfold rowCount in *; lia|].
        exists (row + Z.of_nat n), off'. split; [exact Hrun|].
        split; [lia|]. apply Hle. lia.
      * destruct (maxOffset_terminates d fuel Hf) as [max Hm].
        rewrite Hm. cbn [rbind].
        pose proof (maxOffset_nonpos d fuel max Hm) as Hmax.
        destruct (Z.ltb_spec off max);
          eexists; eexists; (split; [reflexivity|]); split; lia.
    + exists row, off. split; [reflexivity|]. split; lia.
Qed.

(** X8.  A pan never invalidates a valid anchor.  From every state whose
    anchor is a row of the collection, whatever the offset and the delta,
    [scrollContentsBy] finishes without a fault, and afterwards the anchor
    is a row of the collection and the offset is not positive; the
    collection, the spacing and the viewport are untouched. *)
Theorem scrollContentsBy_keeps_anchor_valid (d : ListViewPrivate) (fuel : nat)
        (dx dy : Z) :
  0 <= firstVisibleRow d < rowCount (model d) ->
  (length (model d) <= fuel)%nat ->
  exists d' : ListViewPrivate,
    scrollContentsBy fuel dx dy d = (d', Ok tt)
    /\ 0 <= firstVisibleRow d' < rowCount (model d')
    /\ offset d' <= 0
    /\ model d' = model d /\ spacing d' = spacing d /\ viewport d' = viewport d.
Proof.
  intros Hrow Hf. rewrite scrollContentsBy_unfold.
  destruct (normalizeOffset_valid (set_offset d (offset d + dy)) fuel
              (firstVisibleRow d) (offset d + dy) Hrow Hf)
    as (row' & off' & Hrun & Hin & Hoff).
  rewrite Hrun. eexists. split; [reflexivity|].
  cbn. repeat split; try lia; apply Hin.
Qed.

Lemma scrollContentsBy_keeps_anchor_valid_witness :
  exists d' : ListViewPrivate,
    scrollContentsBy 3 0 (-170) (view5 rows3 100 0 0) = (d', Ok tt)
    /\ 0 <= firstVisibleRow d' < rowCount (model d')
    /\ offset d' <= 0
    /\ model d' = model (view5 rows3 100 0 0)
    /\ spacing d' = spacing (view5 rows3 100 0 0)
    /\ viewport d' = viewport (view5 rows3 100 0 0).
Proof.
  apply (scrollContentsBy_keeps_anchor_valid (view5 rows3 100 0 0) 3 0 (-170)).
  - vm_compute. split; [discriminate|reflexivity].
  - simpl; lia.
Defined.

(** X9.  A pan that moves the anchor forward keeps the rows in place.
    From a valid anchor with rows beyond the window, a delta that makes the
    offset negative ends, without a fault, on an anchor [n] rows further
    down, [n] being the first count at which the offset plus the extent of
    the [n] rows passed no longer exceeds, in absolute value, the extent of
    the row reached.  The new offset is the old one plus the delta plus
    that extent, so every row keeps its position relative to the window;
    the one exception is a walk that arrives on the last row still in
    excess, which sets the offset to [0]. *)
Theorem scrollContentsBy_forward_walk (d : ListViewPrivate) (fuel : nat)
        (dx dy : Z) :
  0 <= firstVisibleRow d < rowCount (model d) ->
  offset d + dy < 0 ->
  rowsBeyondWindow d (firstVisibleRow d) ->
  (length (model d) <= fuel)%nat ->
  let a := firstVisibleRow d in
  let moved n := offset d + dy + extent (model d) (rowWidth d) (spacing d) a n in
  let reach n := rowHeight (model d) (a + Z.of_nat n) (rowWidth d) + spacing d in
  exists (n : nat) (d' : ListViewPrivate),
    scrollContentsBy fuel dx dy d = (d', Ok tt)
    /\ firstVisibleRow d' = a + Z.of_nat n
    /\ a + Z.of_nat n < rowCount (model d)
    /\ (forall k : nat, (k < n)%nat -> Z.abs (moved k) > reach k)
    /\ (offset d' = moved n /\ Z.abs (moved n) <= reach n
        \/ a + Z.of_nat n = rowCount (model d) - 1
           /\ offset d' = 0 /\ Z.abs (moved n) > reach n).
Proof.
  intros Hrow Hneg Hbeyond Hf a moved reach.
  rewrite scrollContentsBy_unfold.
  set (d1 := set_offset d (offset d + dy)).
  assert (normalizeOffset d1 fuel a (offset d + dy)
          = normalizeOffset_down d1 fuel (rowWidth d1) a (offset d + dy)
              (rowHeight (model d1) a (rowWidth d1))) as Hdown.
  { unfold normalizeOffset.
    destruct (Z.gtb_spec (offset d + dy) 0); [lia|].
    destruct (Z.ltb_spec (offset d + dy) 0); [|lia].
    rewrite (canScrollDown_beyond d1 fuel a (proj1 Hrow) Hbeyond Hf).
    cbn [rbind]. rewrite viewport_rect_width. fold (rowWidth d1).
    rewrite heightForWidth_in_range by exact Hrow. reflexivity. }
  destruct (normalizeOffset_down_result d1 fuel a (offset d + dy))
    as (n & off' & Hrun & Hin & Hall & Hend & _);
    [exact Hrow|unfold rowCount in *; cbn; lia|].
  fold a. rewrite Hdown, Hrun.
  exists n. eexists. split; [reflexivity|]. cbn [fst snd].
  split; [reflexivity|]. split; [exact Hin|]. split; [exact Hall|].
  destruct Hend as [[E1 E2]|[E1 [E2 E3]]]; [left|right].
  - split; [exact E1|]. rewrite E1 in E2. exact E2.
  - repeat split; assumption.
Qed.

Lemma scrollContentsBy_forward_walk_witness :
  let d := view5 rows3 100 0 0 in
  let a := firstVisibleRow d in
  let moved n := offset d + (-70) + extent (model d) (rowWidth d) (spacing d) a n in
  let reach n := rowHeight (model d) (a + Z.of_nat n) (rowWidth d) + spacing d in
  exists (n : nat) (d' : ListViewPrivate),
    scrollContentsBy 3 0 (-70) d = (d', Ok tt)
    /\ firstVisibleRow d' = a + Z.of_nat n
    /\ a + Z.of_nat n < rowCount (model d)
    /\ (forall k : nat, (k < n)%nat -> Z.abs (moved k) > reach k)
    /\ (offset d' = moved n /\ Z.abs (moved n) <= reach n
        \/ a + Z.of_nat n = rowCount (model d) - 1
           /\ offset d' = 0 /\ Z.abs (moved n) > reach n).
Proof.
  apply (scrollContentsBy_forward_walk (view5 rows3 100 0 0) 3 0 (-70)).
  - vm_compute. split; [discriminate|reflexivity].
  - simpl; lia.
  - exists 2%nat. split; vm_compute; [reflexivity|discriminate].
  - simpl; lia.
Defined.

(** X10.  A pan that moves the anchor backward: from a valid anchor after
    row [0], a delta that makes the offset positive ends, without a fault,
    on an anchor [n] rows further up.  The walk subtracts from the offset
    the extents of the [n] rows it leaves (the anchor and the rows just
    above the new anchor), stepping while the offset stays positive; it
    ends with an offset that is not positive, or on row [0] with the
    offset set to [0]. *)
Theorem scrollContentsBy_backward_walk (d : ListViewPrivate) (fuel : nat)
        (dx dy : Z) :
  0 < firstVisibleRow d < rowCount (model d) ->
  0 < offset d + dy ->
  (length (model d) <= fuel)%nat ->
  let a := firstVisibleRow d in
  let left n := offset d + dy
                - extent (model d) (rowWidth d) (spacing d)
                    (a - Z.of_nat n + 1) n in
  exists (n : nat) (d' : ListViewPrivate),
    scrollContentsBy fuel dx dy d = (d', Ok tt)
    /\ firstVisibleRow d' = a - Z.of_nat n
    /\ 0 <= a - Z.of_nat n
    /\ (forall k : nat, (k < n)%nat -> left k > 0)
    /\ (offset d' = left n /\ left n <= 0
        \/ a - Z.of_nat n = 0 /\ offset d' = 0 /\ left n > 0).
Proof.
  intros Hrow Hpos Hf a left.
  rewrite scrollContentsBy_unfold.
  set (d1 := set_offset d (offset d + dy)).
  assert (normalizeOffset d1 fuel a (offset d + dy)
          = normalizeOffset_up d1 fuel (rowWidth d1) a (offset d + dy)) as Hup.
  { unfold normalizeOffset.
    destruct (Z.gtb_spec (offset d + dy) 0); [|lia].
    destruct (Z.gtb_spec a 0); [|lia].
    rewrite viewport_rect_width. reflexivity. }
  destruct (normalizeOffset_up_result d1 fuel a (offset d + dy))
    as (n & off' & Hrun & Hin & Hall & Hend);
    [cbn; lia|unfold rowCount in *; cbn; lia|].
  fold a. rewrite Hup, Hrun.
  exists n. eexists. split; [reflexivity|]. cbn [fst snd].
  split; [reflexivity|]. split; [exact Hin|]. split; [exact Hall|].
  destruct Hend as [[E1 E2]|[E1 [E2 E3]]]; [left|right].
  - split; [exact E1|]. rewrite E1 in E2. exact E2.
  - repeat split; assumption.
Qed.

Lemma scrollContentsBy_backward_walk_witness :
  let d := view5 rows3 100 2 0 in
  let a := firstVisibleRow d in
  let left n := offset d + 50
                - extent (model d) (rowWidth d) (spacing d)
                    (a - Z.of_nat n + 1) n in
  exists (n : nat) (d' : ListViewPrivate),
    scrollContentsBy 3 0 50 d = (d', Ok tt)
    /\ firstVisibleRow d' = a - Z.of_nat n
    /\ 0 <= a - Z.of_nat n
    /\ (forall k : nat, (k < n)%nat -> left k > 0)
    /\ (offset d' = left n /\ left n <= 0
        \/ a - Z.of_nat n = 0 /\ offset d' = 0 /\ left n > 0).
Proof.
  apply (scrollContentsBy_backward_walk (view5 rows3 100 2 0) 3 0 50).
  - vm_compute. split; reflexivity.
  - simpl; lia.
  - simpl; lia.
Defined.

(** X11.  The first row is a hard stop.  With non-negative heights and
    spacing, a delta that leaves the offset above the extent of all rows
    from row [1] to the anchor ends at row [0] with offset [0], whatever
    the excess. *)
Theorem scrollContentsBy_clamps_at_top (d : ListViewPrivate) (fuel : nat)
        (dx dy : Z) :
  heightsNonNegative d ->
  0 <= spacing d ->
  0 <= firstVisibleRow d < rowCount (model d) ->
  extent (model d) (rowWidth d) (spacing d) 1 (Z.to_nat (firstVisibleRow d))
  < offset d + dy ->
  (length (model d) <= fuel)%nat ->
  exists d' : ListViewPrivate,
    scrollContentsBy fuel dx dy d = (d', Ok tt)
    /\ firstVisibleRow d' = 0
    /\ offset d' = 0.
Proof.
  intros Hh Hs Hrow Hbig Hf.
  rewrite scrollContentsBy_unfold.
  set (d1 := set_offset d (offset d + dy)).
  pose proof (extent_nonneg d Hh Hs (Z.to_nat (firstVisibleRow d)) 1) as Hall.
  unfold normalizeOffset.
  destruct (Z.gtb_spec (offset d + dy) 0); [|lia].
  destruct (Z.gtb_spec (firstVisibleRow d) 0) as [Hgt|Hle].
  - rewrite viewport_rect_width. fold (rowWidth d1).
    destruct (normalizeOffset_up_result d1 fuel (firstVisibleRow d) (offset d + dy))
      as (n & off' & Hrun & Hin & _ & Hend);
      [cbn; lia|unfold rowCount in *; cbn; lia|].
    rewrite Hrun. eexists. split; [reflexivity|]. cbn [fst snd].
    destruct Hend as [[E1 E2]|[E1 [E2 _]]].
    + exfalso.
      change (model d1) with (model d) in E1.
      change (rowWidth d1) with (rowWidth d) in E1.
      change (spacing d1) with (spacing d) in E1.
      replace (Z.to_nat (firstVisibleRow d))
        with (Z.to_nat (firstVisibleRow d - Z.of_nat n) + n)%nat in Hbig by lia.
      rewrite extent_app in Hbig.
      pose proof (extent_nonneg d Hh Hs
                    (Z.to_nat (firstVisibleRow d - Z.of_nat n)) 1) as Hfront.
      replace (1 + Z.of_nat (Z.to_nat (firstVisibleRow d - Z.of_nat n)))
        with (firstVisibleRow d - Z.of_nat n + 1) in Hbig by lia.
      lia.
    + cbn. split; assumption.
  - eexists. split; [reflexivity|]. cbn. split; lia.
Qed.

Lemma scrollContentsBy_clamps_at_top_witness :
  exists d' : ListViewPrivate,
    scrollContentsBy 3 0 500 (view5 rows3 100 2 (-10)) = (d', Ok tt)
    /\ firstVisibleRow d' = 0
    /\ offset d' = 0.
Proof.
  apply (scrollContentsBy_clamps_at_top (view5 rows3 100 2 (-10)) 3 0 500).
  - repeat constructor; simpl; lia.
  - simpl; lia.
  - vm_compute. split; [discriminate|reflexivity].
  - vm_compute; reflexivity.
  - simpl; lia.
Defined.


(** X12.  On the empty collection every pan is absorbed: with no rows, the
    anchor [-1] and a viewport of non-negative height, [scrollContentsBy]
    needs no fuel and asks the model nothing; whatever the offset and the
    delta, it keeps the anchor [-1] and ends with the offset [0]. *)
Theorem scrollContentsBy_empty (d : ListViewPrivate) (fuel : nat) (dx dy : Z) :
  model d = [] ->
  firstVisibleRow d = -1 ->
  0 <= sz_height (viewport d) ->
  exists d' : ListViewPrivate,
    scrollContentsBy fuel dx dy d = (d', Ok tt)
    /\ firstVisibleRow d' = -1
    /\ offset d' = 0.
Proof.
  intros Hm Ha HH. rewrite scrollContentsBy_unfold.
  set (d1 := set_offset d (offset d + dy)).
  assert (maxOffset d1 fuel = Ok 0) as Hmax.
  { unfold maxOffset. change (model d1) with (model d). rewrite Hm.
    change (rowCount [] - 1) with (-1).
    assert (forall r w y, maxOffset_while d1 fuel r w (-1) y = Ok (-1, y)) as Hw.
    { intros r w y. destruct fuel; cbn [maxOffset_while];
        change (-1 >=? 0) with false; rewrite andb_false_r; reflexivity. }
    rewrite Hw. cbn [rbind snd]. rewrite viewport_rect_height.
    change (viewport d1) with (viewport d).
    destruct (Z.gtb_spec 0 (sz_height (viewport d))); [lia|reflexivity]. }
  unfold normalizeOffset. rewrite Ha.
  destruct (Z.gtb_spec (offset d + dy) 0).
  - change (-1 >? 0) with false. cbv iota.
    eexists. split; [reflexivity|]. cbn. split; reflexivity.
  - destruct (Z.ltb_spec (offset d + dy) 0).
    + change (canScrollDown d1 fuel (-1)) with (@Ok bool false).
      cbn [rbind]. rewrite Hmax. cbn [rbind].
      destruct (Z.ltb_spec (offset d + dy) 0); [|lia].
      eexists. split; [reflexivity|]. cbn. split; reflexivity.
    + eexists. split; [reflexivity|]. cbn. split; [reflexivity|lia].
Qed.

Lemma scrollContentsBy_empty_witness :
  exists d' : ListViewPrivate,
    scrollContentsBy 0 0 (-40) (view5 [] 100 (-1) 0) = (d', Ok tt)
    /\ firstVisibleRow d' = -1
    /\ offset d' = 0.
Proof.
  apply (scrollContentsBy_empty (view5 [] 100 (-1) 0) 0 0 (-40)).
  - reflexivity.
  - reflexivity.
  - simpl; lia.
Defined.

(** ** The slots *)

Lemma calcScrolledAreaSize_totalSize (d : ListViewPrivate) :
  calcScrolledAreaSize d = Ok (totalSize d).
Proof.
  unfold calcScrolledAreaSize, totalSize, rowWidth.
  rewrite viewport_rect_width.
  replace (Z.to_nat (rowCount (model d) - 0)) with (length (model d))
    by (unfold rowCount; lia).
  rewrite (calcScrolledAreaSize_for_sum d _ (model d) [] (spacing d) eq_refl).
  reflexivity.
Qed.

Lemma recalculateSize_run (d : ListViewPrivate) :
  recalculateSize d = (set_scrolledAreaSize d (totalSize d), Ok tt).
Proof.
  unfold recalculateSize, setScrolledAreaSize, vbind, vread, vmodify.
  rewrite calcScrolledAreaSize_totalSize. reflexivity.
Qed.

(** [updateIfNeeded] touches nothing but the repaint counter, by at most
    one. *)
Lemma updateIfNeeded_frame (d : ListViewPrivate) (fuel : nat) (firstRow lastRow : Z) :
  let d' := fst (updateIfNeeded fuel firstRow lastRow d) in
  (d' = d \/ d' = viewport_update d)
  /\ (snd (updateIfNeeded fuel firstRow lastRow d) = Ok true <-> d' = viewport_update d).
Proof.
  unfold updateIfNeeded.
  destruct (updateIfNeeded_for d fuel _ firstRow) as [[|]|]; cbn [fst snd];
    (split; [auto|]); split; intros H; try reflexivity; try discriminate;
    exfalso; destruct d; unfold viewport_update in H; cbn in H;
    injection H; intros; lia.
Qed.

(** X13.  [modelReset] cannot fail: whatever the state and the collection,
    it ends with the anchor [-1], the offset [0], the size of the scrolled
    area recomputed from the collection and one repaint requested.  The
    anchor is [-1] even when the collection has rows, and the renderer
    then draws nothing. *)
Theorem modelReset_state (d : ListViewPrivate) (fuel : nat) :
  let d' := viewport_update
              (set_scrolledAreaSize (set_offset (set_firstVisibleRow d (-1)) 0)
                 (totalSize d)) in
  modelReset d = (d', Ok tt)
  /\ firstVisibleRow d' = -1
  /\ offset d' = 0
  /\ updates d' = S (updates d)
  /\ drawListView d' fuel = Ok [].
Proof.
  cbv zeta. split; [|repeat split].
  unfold modelReset, vbind at 1, vmodify at 1.
  unfold vbind at 1, vmodify at 1. unfold vbind at 1.
  rewrite recalculateSize_run. reflexivity.
Qed.

Lemma slot_tail_run (d : ListViewPrivate) (fuel : nat) (first last : Z) :
  let r := (recalculateSize ;;; updateIfNeeded fuel first last ;;; vret tt) d in
  fst r = set_scrolledAreaSize d (totalSize d)
  \/ fst r = viewport_update (set_scrolledAreaSize d (totalSize d)).
Proof.
  intros r. remember r as r' eqn:Er. unfold r in Er. clear r.
  unfold vbind at 1 in Er. rewrite recalculateSize_run in Er.
  unfold vbind, vret in Er.
  pose proof (updateIfNeeded_frame (set_scrolledAreaSize d (totalSize d))
                fuel first last) as [Hd _].
  destruct (updateIfNeeded fuel first last _) as [d3 [b|f]]; cbn [fst] in *;
    subst r'; exact Hd.
Qed.

Lemma rowsInserted_state_lemma (d : ListViewPrivate) (fuel : nat) (first last : Z) :
  firstVisibleRow (fst (rowsInserted fuel first last d))
  = (if firstVisibleRow d =? -1 then 0 else firstVisibleRow d)
  /\ offset (fst (rowsInserted fuel first last d)) = offset d
  /\ model (fst (rowsInserted fuel first last d)) = model d
  /\ scrolledAreaSize (fst (rowsInserted fuel first last d)) = totalSize d.
Proof.
  set (d' := fst (rowsInserted fuel first last d)).
  set (d1 := if firstVisibleRow d =? -1 then set_firstVisibleRow d 0 else d).
  assert (firstVisibleRow d1
          = (if firstVisibleRow d =? -1 then 0 else firstVisibleRow d)
          /\ offset d1 = offset d /\ totalSize d1 = totalSize d
          /\ model d1 = model d) as (A1 & A2 & A3 & A4).
  { unfold d1. destruct (firstVisibleRow d =? -1); repeat split. }
  assert (d' = set_scrolledAreaSize d1 (totalSize d1)
          \/ d' = viewport_update (set_scrolledAreaSize d1 (totalSize d1)))
    as Hd by exact (slot_tail_run d1 fuel first last).
  destruct Hd as [-> | ->]; cbn; rewrite A3; repeat split; assumption.
Qed.

(** X14.  [rowsInserted] turns the anchor [-1] into [0] and leaves every
    other anchor as it is, never touches the offset, and stores the size
    recomputed from the collection, whether or not the repaint check that
    follows runs into a fault. *)
Theorem rowsInserted_state (d : ListViewPrivate) (fuel : nat) (first last : Z) :
  let d' := fst (rowsInserted fuel first last d) in
  firstVisibleRow d'
  = (if firstVisibleRow d =? -1 then 0 else firstVisibleRow d)
  /\ offset d' = offset d
  /\ scrolledAreaSize d' = totalSize d
  /\ model d' = model d.
Proof.
  intros d'.
  destruct (rowsInserted_state_lemma d fuel first last) as (H1 & H2 & H3 & H4).
  repeat split; assumption.
Qed.

(** X15.  [rowsMoved] never changes the anchor.  It sets the offset to
    [0] exactly when the anchor lies in the source range or in the range
    of the same length at the destination, and requests at most one
    repaint. *)
Theorem rowsMoved_state (d : ListViewPrivate) (fuel : nat)
        (sourceStart sourceEnd destinationRow : Z) :
  let d' := fst (rowsMoved fuel sourceStart sourceEnd destinationRow d) in
  let a := firstVisibleRow d in
  firstVisibleRow d' = a
  /\ offset d'
     = (if ((a >=? sourceStart) && (a <=? sourceEnd))
           || ((a >=? destinationRow)
               && (a <=? destinationRow + sourceEnd - sourceStart))
        then 0 else offset d)
  /\ (updates d' <= S (updates d))%nat
  /\ model d' = model d.
Proof.
  intros d' a.
  set (cond := ((a >=? sourceStart) && (a <=? sourceEnd))
               || ((a >=? destinationRow)
                   && (a <=? destinationRow + sourceEnd - sourceStart))).
  set (d1 := if cond then set_offset d 0 else d).
  assert (firstVisibleRow d1 = a
          /\ offset d1 = (if cond then 0 else offset d)
          /\ updates d1 = updates d /\ model d1 = model d) as (A1 & A2 & A3 & A4).
  { unfold d1. destruct cond; repeat split. }
  assert (d' = d1 \/ d' = viewport_update d1) as Hd.
  { assert (d' = fst ((u <~ updateIfNeeded fuel sourceStart sourceEnd ;;
                        if negb u
                        then updateIfNeeded fuel destinationRow
                               (destinationRow + sourceEnd - sourceStart) ;;; vret tt
                        else vret tt) d1)) as Er by reflexivity.
    clearbody d'. unfold vbind at 1 in Er.
    pose proof (updateIfNeeded_frame d1 fuel sourceStart sourceEnd) as [Hd Hb].
    destruct (updateIfNeeded fuel sourceStart sourceEnd d1) as [d2 [b|f]];
      cbn [fst snd] in *; [|subst d'; exact Hd].
    destruct b; cbn [negb] in Er; [subst d'; exact Hd|].
    assert (d2 = d1) as ->.
    { destruct Hd as [E|E]; [exact E|]. apply Hb in E. discriminate. }
    unfold vbind, vret in Er.
    pose proof (updateIfNeeded_frame d1 fuel destinationRow
                  (destinationRow + sourceEnd - sourceStart)) as [Hd2 _].
    destruct (updateIfNeeded fuel destinationRow _ d1) as [d3 [b|f]];
      cbn [fst] in *; subst d'; exact Hd2. }
  destruct Hd as [-> | ->]; cbn; rewrite ?A1, ?A2, ?A3, ?A4;
    repeat split; lia.
Qed.

Lemma insertRows_shift (m : ListModel) (first row : Z) (new : list Row) :
  0 <= first <= row ->
  nth_error (insertRows m first new) (Z.to_nat (row + Z.of_nat (length new)))
  = nth_error m (Z.to_nat row).
Proof.
  intros Hr. unfold insertRows.
  destruct (Nat.le_gt_cases (Z.to_nat first) (length m)) as [Hle|Hgt].
  - rewrite nth_error_app2 by (rewrite length_firstn; lia).
    rewrite length_firstn, Nat.min_l by exact Hle.
    rewrite nth_error_app2 by lia.
    rewrite nth_error_skipn. f_equal. lia.
  - rewrite firstn_all2 by lia. rewrite skipn_all2 by lia. rewrite app_nil_r.
    transitivity (@None Row); [|symmetry]; apply nth_error_None;
      rewrite ?length_app; lia.
Qed.

(** X16.  An insertion at or above the anchor does not renumber it.  When
    rows are inserted before an index [first] that is not after the anchor
    and [rowsInserted] runs, [firstVisibleRow] and [offset] are what they
    were, while the row that was the anchor now stands as many places
    further down as rows were inserted: the stored index denotes another
    row. *)
Theorem rowsInserted_above_anchor (d : ListViewPrivate) (fuel : nat)
        (first : Z) (new : list Row) :
  0 <= first <= firstVisibleRow d ->
  let count := Z.of_nat (length new) in
  let d' := fst (rowsInserted fuel first (first + count - 1)
                   (set_model d (insertRows (model d) first new))) in
  firstVisibleRow d' = firstVisibleRow d
  /\ offset d' = offset d
  /\ nth_error (model d') (Z.to_nat (firstVisibleRow d' + count))
     = nth_error (model d) (Z.to_nat (firstVisibleRow d)).
Proof.
  intros Ha count d'.
  destruct (rowsInserted_state_lemma
              (set_model d (insertRows (model d) first new)) fuel first
              (first + count - 1)) as (H1 & H2 & H3 & _).
  fold d' in H1, H2, H3. cbn [set_model firstVisibleRow offset model] in H1, H2, H3.
  destruct (Z.eqb_spec (firstVisibleRow d) (-1)) as [E|_]; [lia|].
  rewrite H1, H2, H3. repeat split.
  apply insertRows_shift. exact Ha.
Qed.

Lemma rowsInserted_above_anchor_witness :
  let d := view5 rows3 100 1 (-10) in
  let new : list Row := [fun _ => 20; fun _ => 25] in
  let count := Z.of_nat (length new) in
  let d' := fst (rowsInserted 5 0 (0 + count - 1)
                   (set_model d (insertRows (model d) 0 new))) in
  firstVisibleRow d' = firstVisibleRow d
  /\ offset d' = offset d
  /\ nth_error (model d') (Z.to_nat (firstVisibleRow d' + count))
     = nth_error (model d) (Z.to_nat (firstVisibleRow d)).
Proof.
  apply (rowsInserted_above_anchor (view5 rows3 100 1 (-10)) 5 0
           [fun _ => 20; fun _ => 25]).
  simpl. lia.
Defined.

(** X17.  Removing the whole collection ends in a query for row [-1].
    When [rowsRemoved( first, last )] runs on the emptied collection with
    the anchor in the removed range, it sets the anchor to [-1], the offset
    to [0] and the scrolled area to the viewport width by one [spacing],
    and then its repaint check calls [visualRect( first )], which passes
    the guard [first >= -1] and asks the model for the height of row
    [-1]. *)
Theorem rowsRemoved_all_rows (d : ListViewPrivate) (fuel : nat) (first last : Z) :
  model d = [] ->
  0 <= first <= firstVisibleRow d ->
  firstVisibleRow d <= last ->
  let d' := fst (rowsRemoved fuel first last d) in
  snd (rowsRemoved fuel first last d) = Fault (OutOfRange (-1))
  /\ firstVisibleRow d' = -1
  /\ offset d' = 0
  /\ scrolledAreaSize d' = mkSize (sz_width (viewport d)) (spacing d).
Proof.
  intros Hm Hfirst Hlast.
  set (d1 := set_offset (set_firstVisibleRow d (-1)) 0).
  set (d2 := set_scrolledAreaSize d1 (totalSize d1)).
  assert (rowsRemoved fuel first last d = (d2, Fault (OutOfRange (-1)))) as Hrun.
  { assert (rowsRemoved_reanchor first last d = d1) as Hre.
    { unfold rowsRemoved_reanchor.
      destruct (Z.geb_spec (firstVisibleRow d) first); [|lia].
      destruct (Z.leb_spec (firstVisibleRow d) last); [|lia].
      rewrite Hm. reflexivity. }
    unfold rowsRemoved, vbind at 1, vmodify. rewrite Hre.
    unfold vbind at 1. rewrite recalculateSize_run. fold d2.
    unfold vbind at 1.
    assert (updateIfNeeded fuel first last d2 = (d2, Fault (OutOfRange (-1))))
      as ->; [|reflexivity].
    unfold updateIfNeeded.
    replace (Z.to_nat (last - first + 1))
      with (S (Z.to_nat (last - first))) by lia.
    cbn [updateIfNeeded_for]. unfold visualRect.
    change (firstVisibleRow d2) with (-1).
    destruct (Z.geb_spec first (-1)); [|lia].
    change (model d2) with (model d). rewrite Hm. reflexivity. }
  rewrite Hrun. cbn [fst snd]. repeat split.
  unfold d2, totalSize. cbn. rewrite Hm. cbn. f_equal. lia.
Qed.

Lemma rowsRemoved_all_rows_witness :
  let d := set_model (view5 rows3 100 1 (-10)) (removeRows rows3 0 2) in
  let d' := fst (rowsRemoved 3 0 2 d) in
  snd (rowsRemoved 3 0 2 d) = Fault (OutOfRange (-1))
  /\ firstVisibleRow d' = -1
  /\ offset d' = 0
  /\ scrolledAreaSize d' = mkSize (sz_width (viewport d)) (spacing d).
Proof.
  apply (rowsRemoved_all_rows
           (set_model (view5 rows3 100 1 (-10)) (removeRows rows3 0 2)) 3 0 2).
  - reflexivity.
  - simpl; lia.
  - simpl; lia.
Defined.

Lemma updateIfNeeded_for_before_anchor (d : ListViewPrivate) (fuel : nat) :
  forall (n : nat) (i : Z),
    i + Z.of_nat n <= firstVisibleRow d ->
    updateIfNeeded_for d fuel n i = Ok false.
Proof.
  induction n as [|n IH]; intros i Hi; [reflexivity|].
  cbn [updateIfNeeded_for].
  rewrite visualRect_before_anchor by lia. cbn [rbind].
  change (rect_isNull QRect_null) with true. cbn [negb].
  apply IH. lia.
Qed.

Lemma updateIfNeeded_for_reaches_anchor (d : ListViewPrivate) (fuel : nat)
      (vr : QRect) :
  visualRect d fuel (firstVisibleRow d) = Ok vr ->
  rect_isNull vr = false ->
  forall (n : nat) (i : Z),
    i <= firstVisibleRow d < i + Z.of_nat n ->
    updateIfNeeded_for d fuel n i = Ok true.
Proof.
  intros Hv Hnull. induction n as [|n IH]; intros i Hi; [lia|].
  cbn [updateIfNeeded_for].
  destruct (Z.eq_dec i (firstVisibleRow d)) as [->|Hne].
  - rewrite Hv. cbn [rbind]. rewrite Hnull. reflexivity.
  - rewrite visualRect_before_anchor by lia. cbn [rbind].
    change (rect_isNull QRect_null) with true. cbn [negb].
    apply IH. lia.
Qed.

(** X18.  A change that lies entirely before the anchor is ignored:
    [dataChanged( first, last )] with [last] before the anchor asks the
    model nothing, requests no repaint and leaves the private data as it
    is, with any fuel. *)
Theorem dataChanged_before_anchor (d : ListViewPrivate) (fuel : nat)
        (first last : Z) :
  last < firstVisibleRow d ->
  dataChanged fuel first last d = (d, Ok tt).
Proof.
  intros Hlast. unfold dataChanged, vbind, vret, updateIfNeeded.
  destruct (Z.to_nat (last - first + 1)) as [|n] eqn:En; [reflexivity|].
  rewrite updateIfNeeded_for_before_anchor by lia. reflexivity.
Qed.

Lemma dataChanged_before_anchor_witness :
  dataChanged 0 0 1 (view5 rows3 100 2 (-3)) = (view5 rows3 100 2 (-3), Ok tt).
Proof.
  apply (dataChanged_before_anchor (view5 rows3 100 2 (-3)) 0 0 1).
  simpl. lia.
Defined.

(** X19.  A change that covers the anchor requests exactly one repaint as
    soon as the anchor row shows: when [visualRect] of the anchor is not
    null and [first <= anchor <= last], [dataChanged( first, last )]
    requests one repaint and changes nothing else; the rows before the
    anchor are skipped and no row after it is looked at. *)
Theorem dataChanged_covers_anchor (d : ListViewPrivate) (fuel : nat)
        (first last : Z) (vr : QRect) :
  visualRect d fuel (firstVisibleRow d) = Ok vr ->
  rect_isNull vr = false ->
  first <= firstVisibleRow d <= last ->
  dataChanged fuel first last d = (viewport_update d, Ok tt).
Proof.
  intros Hv Hnull Hin. unfold dataChanged, vbind, vret, updateIfNeeded.
  rewrite (updateIfNeeded_for_reaches_anchor d fuel vr Hv Hnull) by lia.
  reflexivity.
Qed.

Lemma dataChanged_covers_anchor_witness :
  dataChanged 0 0 5 (view5 rows3 100 1 (-20))
  = (viewport_update (view5 rows3 100 1 (-20)), Ok tt).
Proof.
  apply (dataChanged_covers_anchor (view5 rows3 100 1 (-20)) 0 0 5
           (mkRect 5 0 194 59)).
  - vm_compute; reflexivity.
  - vm_compute; reflexivity.
  - simpl; lia.
Defined.

(** ** Hit test *)

Lemma rect_contains_xywh (x y w h : Z) (p : QPoint) :
  0 <= w -> 0 <= h ->
  rect_contains (QRect_xywh x y w h) p false = true <->
  (x <= pt_x p <= x + w - 1 /\ y <= pt_y p <= y + h - 1).
Proof.
  intros Hw Hh. unfold rect_contains, QRect_xywh. cbn [x1 x2 y1 y2].
  destruct (Z.ltb_spec (x + w - 1) (x - 1)); [lia|].
  destruct (Z.ltb_spec (y + h - 1) (y - 1)); [lia|].
  rewrite !andb_true_iff, !Z.leb_le. tauto.
Qed.

Lemma rect_contains_rows (x y w h : Z) (p : QPoint) :
  0 <= h ->
  rect_contains (QRect_xywh x y w h) p false = true ->
  y <= pt_y p <= y + h - 1.
Proof.
  intros Hh. unfold rect_contains, QRect_xywh. cbn [x1 x2 y1 y2].
  destruct (Z.ltb_spec (y + h - 1) (y - 1)); [lia|].
  destruct (x + w - 1 <? x - 1);
    rewrite !andb_true_iff, !Z.leb_le; tauto.
Qed.

Lemma rect_contains_below (x y w h : Z) (p : QPoint) :
  0 <= h -> y + h - 1 < pt_y p ->
  rect_contains (QRect_xywh x y w h) p false = false.
Proof.
  intros Hh Hp.
  destruct (rect_contains (QRect_xywh x y w h) p false) eqn:E; [|reflexivity].
  apply rect_contains_rows in E; lia.
Qed.

Lemma rowAt_while_forward (d : ListViewPrivate) (p : QPoint) :
  heightsNonNegative d -> 0 <= spacing d -> 0 <= pt_y p ->
  forall (fuel : nat) (row y : Z),
    0 <= row ->
    rowCount (model d) - row <= Z.of_nat fuel ->
    exists r : Z,
      rowAt_while d fuel p (spacing d) (rowWidth d) row y = Ok r
      /\ (r = -1
          \/ exists n : nat,
               r = row + Z.of_nat n
               /\ r < rowCount (model d)
               /\ rect_contains
                    (QRect_xywh (spacing d)
                       (y + extent (model d) (rowWidth d) (spacing d) row n)
                       (rowWidth d) (rowHeight (model d) r (rowWidth d)))
                    p false = true).
Proof.
  intros Hh Hs Hp. induction fuel as [|fuel IH]; intros row y H0 Hf.
  - exists (-1). cbn [rowAt_while].
    destruct (Z.ltb_spec row (rowCount (model d))); [lia|].
    rewrite andb_false_r. split; [reflexivity|left; reflexivity].
  - cbn [rowAt_while].
    destruct (Z.geb_spec row 0); [|lia].
    destruct (Z.ltb_spec row (rowCount (model d))) as [Hr|Hr]; cbn [andb];
      [|exists (-1); split; [reflexivity|left; reflexivity]].
    rewrite heightForWidth_in_range by lia. cbn [rbind].
    pose proof (rowHeight_nonneg d row Hh) as Hrow.
    destruct (rect_contains _ p false) eqn:Ec.
    + exists row. split; [reflexivity|]. right. exists 0%nat.
      change (Z.of_nat 0) with 0. cbn [extent].
      rewrite !Z.add_0_r. repeat split; [exact Hr|exact Ec].
    + destruct (Z.gtb_spec
                  (Z.abs y + rowHeight (model d) row (rowWidth d) + spacing d)
                  (Z.abs (pt_y p))) as [Hexit|Hgo].
      * exists (-1). split; [reflexivity|left; reflexivity].
      * destruct (Z.ltb_spec (pt_y p) y) as [Hup|Hdown]; [lia|].
        destruct (IH (row + 1)
                    (y + (rowHeight (model d) row (rowWidth d) + spacing d)))
          as (r & Hrun & Hr'); [lia|lia|].
        exists r. split; [exact Hrun|].
        destruct Hr' as [->|(n & E1 & E2 & E3)]; [left; reflexivity|].
        right. exists (S n). cbn [extent].
        split; [lia|]. split; [exact E2|].
        rewrite Z.add_assoc. exact E3.
Qed.

(** X20.  [rowAt] never asks the model for a row outside the collection
    and, for a point at or below the window top, always answers: with
    non-negative heights and spacing it walks forward only, finishes
    within one step per row, and returns either [-1] or a row at or after
    the anchor whose rectangle (left edge [spacing], top [offset] plus the
    extent of the rows between the anchor and the row, the row width and
    the row's height) contains the point. *)
Theorem rowAt_answers_forward (d : ListViewPrivate) (fuel : nat) (p : QPoint) :
  heightsNonNegative d ->
  0 <= spacing d ->
  0 <= pt_y p ->
  (length (model d) <= fuel)%nat ->
  exists r : Z,
    rowAt d fuel p = Ok r
    /\ (r = -1
        \/ 0 <= firstVisibleRow d <= r
           /\ r < rowCount (model d)
           /\ rect_contains
                (QRect_xywh (spacing d)
                   (offset d
                    + extent (model d) (rowWidth d) (spacing d)
                        (firstVisibleRow d) (Z.to_nat (r - firstVisibleRow d)))
                   (rowWidth d) (rowHeight (model d) r (rowWidth d)))
                p false = true).
Proof.
  intros Hh Hs Hp Hf. unfold rowAt.
  rewrite viewport_rect_width. fold (rowWidth d).
  destruct ((pt_x p <? spacing d) || (pt_x p >? spacing d + rowWidth d));
    [exists (-1); split; [reflexivity|left; reflexivity]|].
  destruct (Z_lt_ge_dec (firstVisibleRow d) 0) as [Hneg|Hpos].
  - exists (-1). split; [|left; reflexivity].
    destruct fuel; cbn [rowAt_while];
      (destruct (Z.geb_spec (firstVisibleRow d) 0); [lia|reflexivity]).
  - destruct (rowAt_while_forward d p Hh Hs Hp fuel (firstVisibleRow d) (offset d))
      as (r & Hrun & Hr); [lia|unfold rowCount; lia|].
    exists r. split; [exact Hrun|].
    destruct Hr as [->|(n & E1 & E2 & E3)]; [left; reflexivity|].
    right. split; [lia|]. split; [exact E2|].
    replace (Z.to_nat (r - firstVisibleRow d)) with n by lia. exact E3.
Qed.

Lemma rowAt_answers_forward_witness :
  let d := view5 rows3 100 0 (-30) in
  let p := mkPoint 10 90 in
  exists r : Z,
    rowAt d 3 p = Ok r
    /\ (r = -1
        \/ 0 <= firstVisibleRow d <= r
           /\ r < rowCount (model d)
           /\ rect_contains
                (QRect_xywh (spacing d)
                   (offset d
                    + extent (model d) (rowWidth d) (spacing d)
                        (firstVisibleRow d) (Z.to_nat (r - firstVisibleRow d)))
                   (rowWidth d) (rowHeight (model d) r (rowWidth d)))
                p false = true).
Proof.
  apply (rowAt_answers_forward (view5 rows3 100 0 (-30)) 3 (mkPoint 10 90)).
  - repeat constructor; simpl; lia.
  - simpl; lia.
  - simpl; lia.
  - simpl; lia.
Defined.

Lemma rowAt_while_finds (d : ListViewPrivate) (p : QPoint) :
  heightsNonNegative d -> 0 <= spacing d ->
  forall (n fuel : nat) (row y : Z),
    0 <= row ->
    row + Z.of_nat n < rowCount (model d) ->
    0 <= y ->
    rect_contains
      (QRect_xywh (spacing d)
         (y + extent (model d) (rowWidth d) (spacing d) row n)
         (rowWidth d) (rowHeight (model d) (row + Z.of_nat n) (rowWidth d)))
      p false = true ->
    (n < fuel)%nat ->
    rowAt_while d fuel p (spacing d) (rowWidth d) row y = Ok (row + Z.of_nat n).
Proof.
  intros Hh Hs. induction n as [|n IH]; intros fuel row y H0 Hn Hy Hc Hf;
    (destruct fuel as [|fuel]; [lia|]); cbn [rowAt_while];
    (destruct (Z.geb_spec row 0); [|lia]);
    (destruct (Z.ltb_spec row (rowCount (model d))); [|lia]); cbn [andb];
    rewrite heightForWidth_in_range by lia; cbn [rbind].
  - change (Z.of_nat 0) with 0 in *. cbn [extent] in Hc.
    rewrite !Z.add_0_r in *. rewrite Hc. reflexivity.
  - pose proof (rowHeight_nonneg d row Hh) as Hrow.
    pose proof (rowHeight_nonneg d (row + Z.of_nat (S n)) Hh) as Hlast.
    pose proof (extent_nonneg d Hh Hs n (row + 1)) as Hext.
    pose proof (rect_contains_rows _ _ _ _ _ Hlast Hc) as Hin.
    cbn [extent] in Hin, Hc.
    rewrite rect_contains_below by lia.
    destruct (Z.gtb_spec
                (Z.abs y + rowHeight (model d) row (rowWidth d) + spacing d)
                (Z.abs (pt_y p))); [lia|].
    destruct (Z.ltb_spec (pt_y p) y); [lia|].
    replace (row + Z.of_nat (S n)) with (row + 1 + Z.of_nat n) in * by lia.
    apply IH; try lia.
    rewrite <- Z.add_assoc. exact Hc.
Qed.

(** X21.  While the anchor is not scrolled above the window top
    ([offset >= 0]), [rowAt] finds the row of every point: with
    non-negative heights, spacing and row width, a point contained in the
    rectangle of a row at or after the anchor (left edge [spacing], top
    [offset] plus the extent of the rows between the anchor and the row,
    the row width and the row's height) gets that row as the answer. *)
Theorem rowAt_finds_row (d : ListViewPrivate) (fuel : nat) (p : QPoint) (r : Z) :
  heightsNonNegative d ->
  0 <= spacing d ->
  0 <= rowWidth d ->
  0 <= offset d ->
  0 <= firstVisibleRow d <= r ->
  r < rowCount (model d) ->
  rect_contains
    (QRect_xywh (spacing d)
       (offset d
        + extent (model d) (rowWidth d) (spacing d)
            (firstVisibleRow d) (Z.to_nat (r - firstVisibleRow d)))
       (rowWidth d) (rowHeight (model d) r (rowWidth d)))
    p false = true ->
  (length (model d) <= fuel)%nat ->
  rowAt d fuel p = Ok r.
Proof.
  intros Hh Hs Hw Ho Ha Hr Hc Hf. unfold rowAt.
  rewrite viewport_rect_width. fold (rowWidth d).
  pose proof (rowHeight_nonneg d r Hh) as Hrow.
  pose proof (proj1 (rect_contains_xywh _ _ _ _ p Hw Hrow) Hc) as [Hx _].
  destruct (Z.ltb_spec (pt_x p) (spacing d)); [lia|].
  destruct (Z.gtb_spec (pt_x p) (spacing d + rowWidth d)); [lia|].
  cbn [orb].
  set (n := Z.to_nat (r - firstVisibleRow d)) in *.
  replace (@Ok Z r) with (@Ok Z (firstVisibleRow d + Z.of_nat n))
    by (f_equal; lia).
  apply rowAt_while_finds; try assumption; try lia.
  - replace (firstVisibleRow d + Z.of_nat n) with r by lia. exact Hc.
  - unfold rowCount in *. lia.
Qed.

Lemma rowAt_finds_row_witness :
  rowAt (view5 rows3 100 0 0) 3 (mkPoint 10 70) = Ok 1.
Proof.
  apply (rowAt_finds_row (view5 rows3 100 0 0) 3 (mkPoint 10 70) 1).
  - repeat constructor; simpl; lia.
  - simpl; lia.
  - vm_compute; discriminate.
  - simpl; lia.
  - simpl; lia.
  - vm_compute; reflexivity.
  - vm_compute; reflexivity.
  - simpl; lia.
Defined.

(** ** Placing a row *)

Lemma scrollTo_plan (d : ListViewPrivate) (fuel : nat) (row : Z) (hint : ScrollHint) :
  0 <= row < rowCount (model d) ->
  hint <> EnsureVisible ->
  scrollTo fuel row hint d
  = scrollTo_move fuel row (expectedOffset d row hint) d.
Proof.
  intros Hr Hh. unfold scrollTo.
  destruct (Z.geb_spec row 0); [|lia].
  destruct (Z.ltb_spec row (rowCount (model d))); [|lia]. cbn [andb].
  destruct hint; [congruence|reflexivity| |];
    unfold vbind at 1, vread at 1;
    rewrite viewport_rect_width; fold (rowWidth d);
    rewrite heightForWidth_in_range by lia;
    unfold expectedOffset; rewrite viewport_rect_height, viewport_rect_y;
    rewrite Z.add_0_l; reflexivity.
Qed.

Lemma walk_stays_negative (d : ListViewPrivate) (row off : Z) (n : nat) :
  off < 0 ->
  (forall k : nat, (k < n)%nat ->
     Z.abs (off + extent (model d) (rowWidth d) (spacing d) row k)
     > rowHeight (model d) (row + Z.of_nat k) (rowWidth d) + spacing d) ->
  forall k : nat, (k <= n)%nat ->
    off + extent (model d) (rowWidth d) (spacing d) row k < 0.
Proof.
  intros Hoff Hall. induction k as [|k IH]; intros Hk.
  - cbn [extent]. lia.
  - rewrite extent_succ_r. specialize (Hall k ltac:(lia)).
    specialize (IH ltac:(lia)). lia.
Qed.

Lemma scrollTo_move_forward (d : ListViewPrivate) (fuel : nat) (row expected : Z) :
  heightsNonNegative d ->
  0 <= spacing d ->
  0 <= firstVisibleRow d <= row ->
  row < rowCount (model d) ->
  rowsBeyondWindow d (firstVisibleRow d) ->
  expected
  - extent (model d) (rowWidth d) (spacing d) (firstVisibleRow d)
      (Z.to_nat (row - firstVisibleRow d)) < 0 ->
  - (rowHeight (model d) row (rowWidth d) + spacing d) <= expected ->
  (length (model d) <= fuel)%nat ->
  exists (n : nat) (p : QPoint) (o1 o2 : Z),
    scrollTo_move fuel row expected d
    = (set_offset
         (set_firstVisibleRow
            (set_offset (set_topLeftPointShownArea d p) o1)
            (firstVisibleRow d + Z.of_nat n)) o2, Ok tt)
    /\ firstVisibleRow d + Z.of_nat n <= row
    /\ o2 + extent (model d) (rowWidth d) (spacing d)
              (firstVisibleRow d + Z.of_nat n)
              (Z.to_nat (row - (firstVisibleRow d + Z.of_nat n)))
       = expected.
Proof.
  intros Hh Hs Ha Hr Hbeyond Hneg Hfit Hf.
  set (a := firstVisibleRow d) in *.
  set (m := Z.to_nat (row - a)) in *.
  set (S0 := extent (model d) (rowWidth d) (spacing d) a m) in *.
  set (delta := - offset d + expected - S0).
  set (p := mkPoint (pt_x (topLeftPointShownArea d))
                    (pt_y (topLeftPointShownArea d) + delta)).
  set (d1 := set_offset (set_topLeftPointShownArea d p) (offset d + delta)).
  assert (offset d + delta = expected - S0) as Ho1 by (unfold delta; lia).
  assert (normalizeOffset d1 fuel a (offset d + delta)
          = normalizeOffset_down d1 fuel (rowWidth d1) a (offset d + delta)
              (rowHeight (model d1) a (rowWidth d1))) as Hdown.
  { unfold normalizeOffset.
    destruct (Z.gtb_spec (offset d + delta) 0); [lia|].
    destruct (Z.ltb_spec (offset d + delta) 0); [|lia].
    rewrite (canScrollDown_beyond d1 fuel a (proj1 Ha) Hbeyond Hf).
    cbn [rbind]. rewrite viewport_rect_width. fold (rowWidth d1).
    rewrite heightForWidth_in_range by (cbn; lia). reflexivity. }
  destruct (normalizeOffset_down_result d1 fuel a (offset d + delta))
    as (n & off' & Hrun & Hin & Hall & Hend & _);
    [cbn; lia|unfold rowCount in *; cbn; lia|].
  change (model d1) with (model d) in *.
  change (rowWidth d1) with (rowWidth d) in *.
  change (spacing d1) with (spacing d) in *.
  pose proof (walk_stays_negative d a (offset d + delta) n ltac:(lia) Hall)
    as Hnegs.
  assert (row = a + Z.of_nat m) as Hrow by lia.
  assert ((n <= m)%nat) as Hnm.
  { destruct (Nat.le_gt_cases n m) as [|Hgt]; [assumption|exfalso].
    specialize (Hall m Hgt). specialize (Hnegs m ltac:(lia)).
    fold S0 in Hall, Hnegs. rewrite <- Hrow in Hall. lia. }
  assert (S0 = extent (model d) (rowWidth d) (spacing d) a n
               + extent (model d) (rowWidth d) (spacing d) (a + Z.of_nat n)
                   (m - n)) as Hsplit.
  { unfold S0. replace m with (n + (m - n))%nat at 1 by lia.
    apply extent_app. }
  exists n, p, (offset d + delta), off'.
  split; [|split; [lia|]].
  - unfold scrollTo_move, vbind, vread.
    rewrite (calculateScroll_forward d fuel row expected Ha Hr Hf).
    fold a. fold m. fold S0. fold delta.
    unfold setTopLeftPointShownArea. rewrite scrollContentsBy_unfold.
    cbn [pt_x pt_y offset set_topLeftPointShownArea set_offset firstVisibleRow
         topLeftPointShownArea].
    replace (pt_y (topLeftPointShownArea d) + delta - pt_y (topLeftPointShownArea d))
      with delta by lia.
    fold p. fold a. fold d1.
    rewrite Hdown, Hrun. reflexivity.
  - replace (Z.to_nat (row - (a + Z.of_nat n))) with (m - n)%nat by lia.
    destruct Hend as [[E1 _]|[E1 [_ E3]]]; [lia|exfalso].
    assert (n = m) as -> by lia.
    specialize (Hnegs m (Nat.le_refl m)). fold S0 in E3, Hnegs.
    rewrite <- Hrow in E3. lia.
Qed.

(** X22.  Placing a row that lies ahead.  For the hints [PositionAtTop],
    [PositionAtBottom] and [PositionAtCenter], a valid target row at or
    after the anchor, non-negative heights and spacing and rows beyond the
    window: when the planned offset of the target, less the extent of the
    rows from the anchor to the target, is negative, and the planned
    offset is not above the window top by more than the target's own
    extent, [scrollTo] finishes without a fault on an anchor at or before
    the target, and the new offset plus the extent of the rows from the
    new anchor to the target is the planned offset.  [visualRect] of the
    target is then the target's rectangle at that offset clipped to the
    viewport, or null when the target is after the new anchor and the
    planned offset exceeds the viewport height. *)
Theorem scrollTo_forward_placement (d : ListViewPrivate) (fuel : nat) (row : Z)
        (hint : ScrollHint) :
  hint <> EnsureVisible ->
  heightsNonNegative d ->
  0 <= spacing d ->
  0 <= firstVisibleRow d <= row ->
  row < rowCount (model d) ->
  rowsBeyondWindow d (firstVisibleRow d) ->
  let planned := expectedOffset d row hint in
  planned
  - extent (model d) (rowWidth d) (spacing d) (firstVisibleRow d)
      (Z.to_nat (row - firstVisibleRow d)) < 0 ->
  - (rowHeight (model d) row (rowWidth d) + spacing d) <= planned ->
  (length (model d) <= fuel)%nat ->
  exists d' : ListViewPrivate,
    scrollTo fuel row hint d = (d', Ok tt)
    /\ firstVisibleRow d <= firstVisibleRow d' <= row
    /\ offset d'
       + extent (model d) (rowWidth d) (spacing d) (firstVisibleRow d')
           (Z.to_nat (row - firstVisibleRow d'))
       = planned
    /\ visualRect d' fuel row
       = Ok (if (firstVisibleRow d' <? row) && (planned >? sz_height (viewport d))
             then QRect_null
             else rect_intersected (viewport_rect d)
                    (QRect_xywh (spacing d) planned (rowWidth d)
                       (rowHeight (model d) row (rowWidth d)))).
Proof.
  intros Hhint Hh Hs Ha Hr Hbeyond planned Hneg Hfit Hf.
  destruct (scrollTo_move_forward d fuel row planned Hh Hs Ha Hr Hbeyond Hneg Hfit Hf)
    as (n & p & o1 & o2 & Hrun & Hle & Hpos).
  rewrite scrollTo_plan by (try lia; assumption). fold planned. rewrite Hrun.
  eexists. split; [reflexivity|].
  cbn [firstVisibleRow offset set_offset set_firstVisibleRow].
  split; [lia|]. split; [exact Hpos|].
  match goal with |- visualRect ?d2 _ _ = _ =>
    pose proof (visualRect_closed_form_lemma d2 fuel row Hh Hs) as Hv
  end.
  cbn [firstVisibleRow offset set_offset set_firstVisibleRow] in Hv.
  change (model (set_offset _ o2)) with (model d) in Hv.
  rewrite Hv by (try lia; assumption).
  change (rowWidth (set_offset _ o2)) with (rowWidth d).
  change (spacing (set_offset _ o2)) with (spacing d).
  change (viewport (set_offset _ o2)) with (viewport d).
  change (viewport_rect (set_offset _ o2)) with (viewport_rect d).
  rewrite Hpos. reflexivity.
Qed.

Lemma scrollTo_forward_placement_witness :
  let d := view5 rows3 100 0 0 in
  let planned := expectedOffset d 2 PositionAtBottom in
  exists d' : ListViewPrivate,
    scrollTo 3 2 PositionAtBottom d = (d', Ok tt)
    /\ firstVisibleRow d <= firstVisibleRow d' <= 2
    /\ offset d'
       + extent (model d) (rowWidth d) (spacing d) (firstVisibleRow d')
           (Z.to_nat (2 - firstVisibleRow d'))
       = planned
    /\ visualRect d' 3 2
       = Ok (if (firstVisibleRow d' <? 2) && (planned >? sz_height (viewport d))
             then QRect_null
             else rect_intersected (viewport_rect d)
                    (QRect_xywh (spacing d) planned (rowWidth d)
                       (rowHeight (model d) 2 (rowWidth d)))).
Proof.
  apply (scrollTo_forward_placement (view5 rows3 100 0 0) 3 2 PositionAtBottom).
  - discriminate.
  - repeat constructor; simpl; lia.
  - simpl; lia.
  - simpl; lia.
  - vm_compute; reflexivity.
  - exists 2%nat. split; vm_compute; [reflexivity|discriminate].
  - vm_compute; reflexivity.
  - vm_compute; discriminate.
  - simpl; lia.
Defined.




(** ** Position at top *)



